(** * Voice notes: the recorder, the transcription pipeline and the note editor

    A shallow embedding of [src/App.tsx] (the [App] component) and of the
    table declared in [src/db/init.ts].

    The component is a React function component: every render runs [App]
    again and builds new handler closures over the state values of that
    render.  A handler therefore has two views of the state:
    - the values it closes over (the render it was created in), which it
      reads as plain variables ([audioChunks], [recordingTime], ...);
    - the live state, which it changes through the setters ([setNotes],
      [setAudioChunks], ...).
    Handlers are modelled as functions of both: [r] is the render the
    handler belongs to, [live] the state its setters act on.  A handler
    bound to a button runs in the latest render, so there [r = live]; the
    [onstop] handler of a recorder keeps the render in which recording was
    started.  The hosted services (store, transcription, file reader, clock)
    are a record of responses, [Host]; every call is also written to a log
    of effects, so that what is sent out can be stated.  A handler runs to
    its end, awaited calls included, before the next event is taken. *)

From Stdlib Require Import String Ascii List Bool Arith PeanoNat NArith Lia.
From Stdlib Require Import Permutation Sorted DecimalString DecimalPos DecimalN.
Import ListNotations.
Open Scope string_scope.
Open Scope nat_scope.
Open Scope list_scope.

(** ** JavaScript strings

    A string is a sequence of code units; the model keeps the code units
    below 256, which is what [string] holds. *)
Module JS.

(** White space and line terminators of ECMAScript below 256:
    TAB, LF, VT, FF, CR, SP and NBSP. *)
Definition isWhiteSpace (c : ascii) : bool :=
  let n := nat_of_ascii c in
  ((9 <=? n) && (n <=? 13)) || (n =? 32) || (n =? 160).

Fixpoint trimStart (s : string) : string :=
  match s with
  | EmptyString => EmptyString
  | String c s' => if isWhiteSpace c then trimStart s' else s
  end.

Fixpoint trimEnd (s : string) : string :=
  match s with
  | EmptyString => EmptyString
  | String c s' =>
      match trimEnd s' with
      | EmptyString => if isWhiteSpace c then EmptyString else String c EmptyString
      | t => String c t
      end
  end.

(** [String.prototype.trim] *)
Definition trim (s : string) : string := trimEnd (trimStart s).

(** [a || b] on strings: the empty string is the only falsy string. *)
Definition or (a b : string) : string :=
  match a with
  | EmptyString => b
  | _ => a
  end.

(** [String.prototype.split] with a one-character separator. *)
Fixpoint split (sep : ascii) (s : string) : list string :=
  match s with
  | EmptyString => [EmptyString]
  | String c s' =>
      if Ascii.eqb c sep then EmptyString :: split sep s'
      else match split sep s' with
           | [] => [String c EmptyString]
           | piece :: rest => String c piece :: rest
           end
  end.

(** Decimal rendering of a non-negative integer, as in a template
    literal. *)
Definition ofNumber (n : N) : string := NilZero.string_of_uint (N.to_uint n).

(** [String.prototype.padStart] with a one-character filler. *)
Definition padStart (s : string) (targetLength : nat) (filler : ascii) : string :=
  (string_of_list_ascii (repeat filler (targetLength - String.length s)) ++ s)%string.

(** Reading a decimal numeral back; used to state what the renderings
    keep. *)
Definition toNumber (s : string) : option N :=
  option_map N.of_uint (NilZero.uint_of_string s).

(** [s] holds the character [c]. *)
Fixpoint includes (c : ascii) (s : string) : bool :=
  match s with
  | EmptyString => false
  | String a s' => Ascii.eqb a c || includes c s'
  end.

(** Every character of [s] is white space. *)
Fixpoint isBlank (s : string) : bool :=
  match s with
  | EmptyString => true
  | String a s' => isWhiteSpace a && isBlank s'
  end.

End JS.

(** ** Data model *)

(** [interface Note]; the optional fields are options. *)
Module Note.
Record t : Type := mk {
  id : string;
  title : string;
  content : string;
  created_at : string;
  updated_at : string;
  user_id : string;
  duration : option nat;
  audio_url : option string
}.
End Note.

(** The signed-in user, [{ id; email }]. *)
Module User.
Record t : Type := mk { id : string; email : string }.
End User.

(** A [Blob]: its media type and its bytes. *)
Module Blob.
Record t : Type := mk { type : string; bytes : list Byte.byte }.
Definition size (b : t) : nat := length (bytes b).
(** [new Blob(parts, { type })] *)
Definition ofParts (parts : list t) (ty : string) : t :=
  mk ty (concat (map bytes parts)).
End Blob.

(** The outcome of an awaited promise. *)
Inductive Promise (A : Type) : Type :=
| Resolved (a : A)
| Rejected (reason : string).
Arguments Resolved {A} a.
Arguments Rejected {A} reason.

(** The object passed to [blink.db.notes.create]. *)
Record CreateFields : Type := mkCreate {
  c_title : string;
  c_content : string;
  c_user_id : string;
  c_duration : nat
}.

(** The object passed to [blink.db.notes.update]. *)
Record UpdateFields : Type := mkUpdate {
  u_content : string;
  u_title : string;
  u_updated_at : string
}.

(** The text columns of the [notes] table ([src/db/init.ts]). *)
Inductive Column : Type :=
| col_id | col_title | col_content | col_user_id | col_created_at | col_updated_at.

Inductive Direction : Type := asc | desc.

(** The options of [blink.db.notes.list]: an optional owner filter and an
    optional ordering. *)
Record ListOptions : Type := mkList {
  where_user_id : option string;
  orderBy : option (Column * Direction)
}.

(** The two statements of [initializeDatabase] ([src/db/init.ts]): the
    [notes] table, whose columns are the fields of [Note.t], and the index
    on [user_id]. *)
Inductive Statement : Type := createNotesTable | createUserIdIndex.

Inductive ToastKind : Type := success | error | loading.

(** What a handler does to the outside: calls to the hosted services,
    notices to the user, and the console. *)
Inductive Effect : Type :=
| AuthMe
| DbSql (statement : Statement)
| DbList (opts : ListOptions)
| DbCreate (fields : CreateFields)
| DbUpdate (id : string) (fields : UpdateFields)
| DbDelete (id : string)
| AiTranscribeAudio (audio : option string) (language : string)
| ReadAsDataURL (b : Blob.t)
| Toast (kind : ToastKind) (message : string)
| ConsoleLog (message : string)
| ConsoleError (message : string).

(** The responses of the platform and of the hosted services. *)
Record Host : Type := mkHost {
  auth_me : Promise User.t;
  db_sql : Statement -> Promise unit;
  readAsDataURL : Blob.t -> Promise string;
  transcribeAudio : option string -> string -> Promise string;
  db_create : CreateFields -> Promise Note.t;
  db_update : string -> UpdateFields -> Promise Note.t;
  db_delete : string -> Promise unit;
  db_list : ListOptions -> Promise (list Note.t);
  date_now : N;
  date_toISOString : string;
  date_toLocaleDateString : string
}.

(** ** A fallible computation that logs its effects

    The body of a [try] block: the effects issued so far and either a value
    or the thrown error. *)
Definition Try (A : Type) : Type := list Effect * Promise A.

Definition ret {A} (a : A) : Try A := ([], Resolved a).

Definition throw {A} (reason : string) : Try A := ([], Rejected reason).

Definition bind {A B} (m : Try A) (k : A -> Try B) : Try B :=
  match m with
  | (log, Resolved a) => let (log', res) := k a in (log ++ log', res)
  | (log, Rejected e) => (log, Rejected e)
  end.

(** [await] of a call to the outside: log the call, continue with its
    outcome. *)
Definition await {A} (call : Effect) (outcome : Promise A) : Try A :=
  ([call], outcome).

Notation "x <- m ;; k" := (bind m (fun x => k))
  (at level 61, m at next level, right associativity).

(** ** The state of the component

    One field per [useState] of [App]; [mediaRecorder] is a reference to a
    recorder object of the world below. *)
Record State : Type := mkState {
  notes : list Note.t;
  currentNote : option Note.t;
  isRecording : bool;
  isPaused : bool;
  isTranscribing : bool;
  recordingTime : nat;
  mediaRecorder : option nat;
  audioChunks : list Blob.t;
  user : option User.t;
  newNoteTitle : string
}.

Definition initialState : State :=
  mkState [] None false false false 0 None [] None "".

Definition setNotes (v : list Note.t) (s : State) : State :=
  mkState v (currentNote s) (isRecording s) (isPaused s) (isTranscribing s)
          (recordingTime s) (mediaRecorder s) (audioChunks s) (user s) (newNoteTitle s).

Definition setCurrentNote (v : option Note.t) (s : State) : State :=
  mkState (notes s) v (isRecording s) (isPaused s) (isTranscribing s)
          (recordingTime s) (mediaRecorder s) (audioChunks s) (user s) (newNoteTitle s).

Definition setIsRecording (v : bool) (s : State) : State :=
  mkState (notes s) (currentNote s) v (isPaused s) (isTranscribing s)
          (recordingTime s) (mediaRecorder s) (audioChunks s) (user s) (newNoteTitle s).

Definition setIsPaused (v : bool) (s : State) : State :=
  mkState (notes s) (currentNote s) (isRecording s) v (isTranscribing s)
          (recordingTime s) (mediaRecorder s) (audioChunks s) (user s) (newNoteTitle s).

Definition setIsTranscribing (v : bool) (s : State) : State :=
  mkState (notes s) (currentNote s) (isRecording s) (isPaused s) v
          (recordingTime s) (mediaRecorder s) (audioChunks s) (user s) (newNoteTitle s).

Definition setRecordingTime (v : nat) (s : State) : State :=
  mkState (notes s) (currentNote s) (isRecording s) (isPaused s) (isTranscribing s)
          v (mediaRecorder s) (audioChunks s) (user s) (newNoteTitle s).

Definition setMediaRecorder (v : option nat) (s : State) : State :=
  mkState (notes s) (currentNote s) (isRecording s) (isPaused s) (isTranscribing s)
          (recordingTime s) v (audioChunks s) (user s) (newNoteTitle s).

Definition setAudioChunks (v : list Blob.t) (s : State) : State :=
  mkState (notes s) (currentNote s) (isRecording s) (isPaused s) (isTranscribing s)
          (recordingTime s) (mediaRecorder s) v (user s) (newNoteTitle s).

Definition setUser (v : option User.t) (s : State) : State :=
  mkState (notes s) (currentNote s) (isRecording s) (isPaused s) (isTranscribing s)
          (recordingTime s) (mediaRecorder s) (audioChunks s) v (newNoteTitle s).

Definition setNewNoteTitle (v : string) (s : State) : State :=
  mkState (notes s) (currentNote s) (isRecording s) (isPaused s) (isTranscribing s)
          (recordingTime s) (mediaRecorder s) (audioChunks s) (user s) v.

(** ** The handlers of [App] that do not touch the recorder object *)

(** The options [loadNotes] passes to the store:
    [{ orderBy: { updated_at: 'desc' } }]. *)
Definition loadNotesOptions : ListOptions :=
  mkList None (Some (col_updated_at, desc)).

(** [loadNotes]: the store's answer replaces the collection. *)
Definition loadNotes (h : Host) (live : State) : State * list Effect :=
  match db_list h loadNotesOptions with
  | Resolved notesData => (setNotes notesData live, [DbList loadNotesOptions])
  | Rejected _ =>
      (live, [DbList loadNotesOptions; ConsoleError "Error loading notes:"])
  end.

(** [const noteTitle] of [processRecording]. *)
Definition noteTitle (h : Host) (r : State) : string :=
  JS.or (JS.trim (newNoteTitle r))
        ("Voice Note " ++ date_toLocaleDateString h)%string.

(** [const audioBlob] and the second piece of its data URL. *)
Definition audioBlob (r : State) : Blob.t :=
  Blob.ofParts (audioChunks r) "audio/wav".

Definition base64Data (dataUrl : string) : option string :=
  nth_error (JS.split "," dataUrl) 1.

(** The body of the [try] block of [processRecording]. *)
Definition transcribeAndCreate (h : Host) (r : State) : Try Note.t :=
  dataUrl <- await (ReadAsDataURL (audioBlob r))
                   (readAsDataURL h (audioBlob r)) ;;
  let base64Audio := base64Data dataUrl in
  text <- await (AiTranscribeAudio base64Audio "en")
                (transcribeAudio h base64Audio "en") ;;
  u <- match user r with
       | Some u => ret u
       | None => throw "TypeError: user is null"
       end ;;
  let fields := mkCreate (noteTitle h r) text (User.id u) (recordingTime r) in
  await (DbCreate fields) (db_create h fields).

(** [processRecording].  [audioChunks], [newNoteTitle], [user] and
    [recordingTime] are read from the render [r]; the setters act on
    [live]. *)
Definition processRecording (h : Host) (r live : State) : State * list Effect :=
  match audioChunks r with
  | [] => (live, [])
  | _ :: _ =>
      let live := setIsTranscribing true live in
      let (calls, outcome) := transcribeAndCreate h r in
      let (live, notices) :=
        match outcome with
        | Resolved newNote =>
            (setNewNoteTitle ""
               (setCurrentNote (Some newNote)
                  (setNotes (newNote :: notes live) live)),
             [Toast success "Recording transcribed successfully!"])
        | Rejected _ =>
            (live, [ConsoleError "Error transcribing audio:";
                    Toast error "Failed to transcribe audio"])
        end in
      (setAudioChunks [] (setIsTranscribing false live),
       Toast loading "Transcribing audio..." :: calls ++ notices)
  end.

(** [saveNote] *)
Definition saveNote (h : Host) (r live : State) : State * list Effect :=
  match currentNote r with
  | None => (live, [])
  | Some cur =>
      let fields :=
        mkUpdate (Note.content cur) (Note.title cur) (date_toISOString h) in
      match db_update h (Note.id cur) fields with
      | Resolved updatedNote =>
          (setNotes
             (map (fun note =>
                     if String.eqb (Note.id note) (Note.id updatedNote)
                     then updatedNote else note)
                  (notes live))
             live,
           [DbUpdate (Note.id cur) fields; Toast success "Note saved!"])
      | Rejected _ =>
          (live, [DbUpdate (Note.id cur) fields;
                  ConsoleError "Error saving note:";
                  Toast error "Failed to save note"])
      end
  end.

(** [currentNote?.id === noteId] *)
Definition currentNoteHasId (r : State) (noteId : string) : bool :=
  match currentNote r with
  | Some cur => String.eqb (Note.id cur) noteId
  | None => false
  end.

(** [deleteNote] *)
Definition deleteNote (h : Host) (noteId : string) (r live : State)
  : State * list Effect :=
  match db_delete h noteId with
  | Resolved _ =>
      let live :=
        setNotes
          (filter (fun note => negb (String.eqb (Note.id note) noteId))
                  (notes live))
          live in
      let live :=
        if currentNoteHasId r noteId then setCurrentNote None live else live in
      (live, [DbDelete noteId; Toast success "Note deleted!"])
  | Rejected _ =>
      (live, [DbDelete noteId;
              ConsoleError "Error deleting note:";
              Toast error "Failed to delete note"])
  end.

(** [createNewNote]: a draft with a client-made identifier, held only as the
    active note. *)
Definition createNewNote (h : Host) (r live : State) : State :=
  let newNote :=
    Note.mk ("temp-" ++ JS.ofNumber (date_now h))%string
            "New Note"
            ""
            (date_toISOString h)
            (date_toISOString h)
            match user r with
            | Some u => JS.or (User.id u) ""
            | None => ""
            end
            None
            None in
  setCurrentNote (Some newNote) live.

(** The client-made identifiers of drafts. *)
Definition isTemporaryId (noteId : string) : bool := String.prefix "temp-" noteId.

(** The two [onChange] handlers of the editor. *)
Definition editTitle (v : string) (r live : State) : State :=
  match currentNote r with
  | Some cur =>
      setCurrentNote
        (Some (Note.mk (Note.id cur) v (Note.content cur) (Note.created_at cur)
                       (Note.updated_at cur) (Note.user_id cur)
                       (Note.duration cur) (Note.audio_url cur)))
        live
  | None => live
  end.

Definition editContent (v : string) (r live : State) : State :=
  match currentNote r with
  | Some cur =>
      setCurrentNote
        (Some (Note.mk (Note.id cur) (Note.title cur) v (Note.created_at cur)
                       (Note.updated_at cur) (Note.user_id cur)
                       (Note.duration cur) (Note.audio_url cur)))
        live
  | None => live
  end.

(** [initializeDatabase] ([src/db/init.ts]): the table, then the index; an
    error is caught and logged. *)
Definition initializeDatabase (h : Host) : list Effect :=
  let (calls, outcome) :=
    _ <- await (DbSql createNotesTable) (db_sql h createNotesTable) ;;
    await (DbSql createUserIdIndex) (db_sql h createUserIdIndex) in
  match outcome with
  | Resolved _ => calls ++ [ConsoleLog "Database initialized successfully"]
  | Rejected _ => calls ++ [ConsoleError "Error initializing database:"]
  end.

(** The mount effect, [loadUserAndNotes]. *)
Definition loadUserAndNotes (h : Host) (live : State) : State * list Effect :=
  let init := initializeDatabase h in
  match auth_me h with
  | Resolved currentUser =>
      let (live, log) := loadNotes h (setUser (Some currentUser) live) in
      (live, init ++ AuthMe :: log)
  | Rejected _ => (live, init ++ [AuthMe; ConsoleError "Error loading user:"])
  end.

(** The callback of the one-second interval, which the timer effect
    installs only while [isRecording && !isPaused]. *)
Definition tick (live : State) : State :=
  if isRecording live && negb (isPaused live)
  then setRecordingTime (recordingTime live + 1) live
  else live.

(** ** The recorder objects *)

(** [MediaRecorder.state] *)
Inductive RecordingState : Type := inactive | recording | paused.

(** A [MediaRecorder] made by [startRecording]: its state, and the render
    whose [processRecording] its [onstop] handler calls. *)
Module MediaRecorder.
Record t : Type := mk { state : RecordingState; onstop : State }.
End MediaRecorder.

(** The component state and the recorder objects made so far; a recorder is
    referred to by its position. *)
Record World : Type := mkWorld {
  ui : State;
  recorders : list MediaRecorder.t
}.

Definition initialWorld : World := mkWorld initialState [].

Fixpoint setRecorderState (i : nat) (s : RecordingState)
         (recs : list MediaRecorder.t) : list MediaRecorder.t :=
  match recs, i with
  | [], _ => []
  | rec :: rest, 0 => MediaRecorder.mk s (MediaRecorder.onstop rec) :: rest
  | rec :: rest, S j => rec :: setRecorderState j s rest
  end.

(** The recorder the [mediaRecorder] state refers to. *)
Definition currentRecorder (w : World) : option (nat * MediaRecorder.t) :=
  match mediaRecorder (ui w) with
  | Some i =>
      match nth_error (recorders w) i with
      | Some rec => Some (i, rec)
      | None => None
      end
  | None => None
  end.

(** [startRecording]; [media] is the outcome of [getUserMedia].  The new
    recorder's [onstop] closes over [processRecording] of the render in
    which [startRecording] runs, that is over [ui w] before the setters. *)
Definition startRecording (media : Promise unit) (w : World)
  : World * list Effect :=
  match media with
  | Resolved _ =>
      let recorder := length (recorders w) in
      let live :=
        setIsPaused false
          (setIsRecording true
             (setRecordingTime 0
                (setAudioChunks []
                   (setMediaRecorder (Some recorder) (ui w))))) in
      (mkWorld live (recorders w ++ [MediaRecorder.mk recording (ui w)]),
       [Toast success "Recording started!"])
  | Rejected _ =>
      (w, [ConsoleError "Error starting recording:";
           Toast error
             "Could not start recording. Please check microphone permissions."])
  end.

(** [pauseRecording] *)
Definition pauseRecording (w : World) : World * list Effect :=
  match currentRecorder w with
  | Some (i, rec) =>
      match MediaRecorder.state rec with
      | recording =>
          (mkWorld (setIsPaused true (ui w))
                   (setRecorderState i paused (recorders w)),
           [Toast success "Recording paused"])
      | _ => (w, [])
      end
  | None => (w, [])
  end.

(** [resumeRecording] *)
Definition resumeRecording (w : World) : World * list Effect :=
  match currentRecorder w with
  | Some (i, rec) =>
      match MediaRecorder.state rec with
      | paused =>
          (mkWorld (setIsPaused false (ui w))
                   (setRecorderState i recording (recorders w)),
           [Toast success "Recording resumed"])
      | _ => (w, [])
      end
  | None => (w, [])
  end.

(** [stopRecording]: the handler itself; the events the stopped recorder
    then delivers are [ondataavailable] and [onstop] below. *)
Definition stopRecording (w : World) : World :=
  match currentRecorder w with
  | Some (i, rec) =>
      match MediaRecorder.state rec with
      | recording | paused =>
          mkWorld (setIsPaused false (setIsRecording false (ui w)))
                  (setRecorderState i inactive (recorders w))
      | inactive => w
      end
  | None => w
  end.

(** [recorder.ondataavailable] *)
Definition ondataavailable (data : Blob.t) (live : State) : State :=
  if 0 <? Blob.size data
  then setAudioChunks (audioChunks live ++ [data]) live
  else live.

(** [recorder.onstop]: the tracks are released and [processRecording] of the
    recorder's render runs. *)
Definition onstop (h : Host) (rec : MediaRecorder.t) (live : State)
  : State * list Effect :=
  processRecording h (MediaRecorder.onstop rec) live.

(** ** The component as a transition system *)

(** What can happen to the mounted component.  [ClickStop] carries the data
    the stopped recorder delivers ([recorder.start()] is called without a
    time slice, so data arrives once, when the recorder stops). *)
Inductive Event : Type :=
| Mount
| ClickStart (media : Promise unit)
| ClickPause
| ClickResume
| ClickStop (final : Blob.t)
| Tick
| TypeNewNoteTitle (v : string)
| SelectNote (i : nat)
| EditTitle (v : string)
| EditContent (v : string)
| ClickNew
| ClickSave
| ClickDelete.

(** A handler that only touches the component state. *)
Definition onUi (f : State -> State * list Effect) (w : World)
  : World * list Effect :=
  let (live, log) := f (ui w) in (mkWorld live (recorders w), log).

(** The Stop button: [stopRecording], then the recorder delivers its data
    and its stop event. *)
Definition clickStop (h : Host) (final : Blob.t) (w : World)
  : World * list Effect :=
  match currentRecorder w with
  | Some (i, rec) =>
      match MediaRecorder.state rec with
      | recording | paused =>
          let w1 := stopRecording w in
          let (live, log) := onstop h rec (ondataavailable final (ui w1)) in
          (mkWorld live (recorders w1), log)
      | inactive => (w, [])
      end
  | None => (w, [])
  end.

(** Button handlers run in the latest render: they read [ui w]. *)
Definition step (h : Host) (ev : Event) (w : World) : World * list Effect :=
  match ev with
  | Mount => onUi (loadUserAndNotes h) w
  | ClickStart media => startRecording media w
  | ClickPause => pauseRecording w
  | ClickResume => resumeRecording w
  | ClickStop final => clickStop h final w
  | Tick => onUi (fun live => (tick live, [])) w
  | TypeNewNoteTitle v => onUi (fun live => (setNewNoteTitle v live, [])) w
  | SelectNote i =>
      onUi (fun live =>
              match nth_error (notes live) i with
              | Some note => (setCurrentNote (Some note) live, [])
              | None => (live, [])
              end) w
  | EditTitle v => onUi (fun live => (editTitle v live live, [])) w
  | EditContent v => onUi (fun live => (editContent v live live, [])) w
  | ClickNew => onUi (fun live => (createNewNote h live live, [])) w
  | ClickSave => onUi (fun live => saveNote h live live) w
  | ClickDelete =>
      onUi (fun live =>
              match currentNote live with
              | Some cur => deleteNote h (Note.id cur) live live
              | None => (live, [])
              end) w
  end.

Fixpoint run (h : Host) (evs : list Event) (w : World) : World * list Effect :=
  match evs with
  | [] => (w, [])
  | ev :: rest =>
      let (w1, log1) := step h ev w in
      let (w2, log2) := run h rest w1 in
      (w2, log1 ++ log2)
  end.

(** ** The recorder state machine, as the specification words it

    States Idle, Recording, Paused, Stopped; [start] begins a session from
    Idle (or a new one after Stopped) and resets the elapsed time, [pause]
    is valid from Recording, [resume] from Paused, [stop] from Recording or
    Paused; a tick counts one second, only in Recording.  [None]: the
    operation is not valid in the state. *)
Module Spec.

Inductive Phase : Type := Idle | Recording | Paused | Stopped.

Record Session : Type := mk { phase : Phase; elapsed : nat }.

Definition start : Session := mk Idle 0.

Definition step (ev : Event) (s : Session) : option Session :=
  match ev with
  | ClickStart media =>
      match phase s with
      | Idle | Stopped =>
          match media with
          | Resolved _ => Some (mk Recording 0)
          | Rejected _ => Some s
          end
      | _ => None
      end
  | ClickPause =>
      match phase s with
      | Recording => Some (mk Paused (elapsed s))
      | _ => None
      end
  | ClickResume =>
      match phase s with
      | Paused => Some (mk Recording (elapsed s))
      | _ => None
      end
  | ClickStop _ =>
      match phase s with
      | Recording | Paused => Some (mk Stopped (elapsed s))
      | _ => None
      end
  | Tick =>
      match phase s with
      | Recording => Some (mk Recording (S (elapsed s)))
      | _ => Some s
      end
  | _ => Some s
  end.

Fixpoint run (evs : list Event) (s : Session) : option Session :=
  match evs with
  | [] => Some s
  | ev :: rest =>
      match step ev s with
      | Some s' => run rest s'
      | None => None
      end
  end.

End Spec.

(** The state of the specification's machine a world is in. *)
Definition phaseOf (w : World) : Spec.Phase :=
  match currentRecorder w with
  | None => Spec.Idle
  | Some (_, rec) =>
      match MediaRecorder.state rec with
      | recording => Spec.Recording
      | paused => Spec.Paused
      | inactive => Spec.Stopped
      end
  end.

(** The recording flags agree with the recorder the component refers to. *)
Definition flagsAgree (w : World) : Prop :=
  isRecording (ui w) =
    match phaseOf w with
    | Spec.Recording | Spec.Paused => true
    | _ => false
    end
  /\ isPaused (ui w) =
    match phaseOf w with
    | Spec.Paused => true
    | _ => false
    end.

(** ** The hosted store *)

(** Modelled from the spec: the hosted store behind [blink.db.notes] is not
    part of the sources.  The model follows the specification's store
    interface ([list(filter, orderBy)], [create(fields)] returning the
    persisted note with server-assigned identifier and timestamps,
    [update] and [delete] failing with NotFound on an absent identifier)
    and the columns and defaults of the table in [src/db/init.ts]. *)
Module HostedStore.

Definition column (c : Column) (n : Note.t) : string :=
  match c with
  | col_id => Note.id n
  | col_title => Note.title n
  | col_content => Note.content n
  | col_user_id => Note.user_id n
  | col_created_at => Note.created_at n
  | col_updated_at => Note.updated_at n
  end.

(** [a] may come before [b] in the ordering; text columns compare as
    strings. *)
Definition inOrder (ord : Column * Direction) (a b : Note.t) : bool :=
  match snd ord with
  | asc => String.leb (column (fst ord) a) (column (fst ord) b)
  | desc => String.leb (column (fst ord) b) (column (fst ord) a)
  end.

Fixpoint insert (ord : Column * Direction) (n : Note.t) (l : list Note.t)
  : list Note.t :=
  match l with
  | [] => [n]
  | m :: rest =>
      if inOrder ord n m then n :: m :: rest else m :: insert ord n rest
  end.

Definition sort (ord : Column * Direction) (l : list Note.t) : list Note.t :=
  fold_right (insert ord) [] l.

Definition listRows (opts : ListOptions) (rows : list Note.t) : list Note.t :=
  let selected :=
    match where_user_id opts with
    | Some owner =>
        filter (fun n => String.eqb (Note.user_id n) owner) rows
    | None => rows
    end in
  match orderBy opts with
  | Some ord => sort ord selected
  | None => selected
  end.

(** The row a [create] inserts: the identifier and both timestamps are
    the table's defaults, [audio_url] is absent. *)
Definition create (newId now : string) (f : CreateFields) : Note.t :=
  Note.mk newId (c_title f) (c_content f) now now (c_user_id f)
          (Some (c_duration f)) None.

Definition hasId (noteId : string) (n : Note.t) : bool :=
  String.eqb (Note.id n) noteId.

Definition update (noteId : string) (f : UpdateFields) (rows : list Note.t)
  : Promise Note.t :=
  match find (hasId noteId) rows with
  | Some n =>
      Resolved (Note.mk (Note.id n) (u_title f) (u_content f)
                        (Note.created_at n) (u_updated_at f) (Note.user_id n)
                        (Note.duration n) (Note.audio_url n))
  | None => Rejected "NotFound"
  end.

Definition delete (noteId : string) (rows : list Note.t) : Promise unit :=
  if existsb (hasId noteId) rows then Resolved tt else Rejected "NotFound".

(** A host whose store holds [rows]; the signed-in user, the file reader,
    the transcription service and the clock are given. *)
Definition host (rows : list Note.t) (newId : string)
           (me : Promise User.t)
           (reader : Blob.t -> Promise string)
           (transcriber : option string -> string -> Promise string)
           (now : N) (iso localeDate : string) : Host :=
  mkHost me (fun _ => Resolved tt) reader transcriber
         (fun f => Resolved (create newId iso f))
         (fun noteId f => update noteId f rows)
         (fun noteId => delete noteId rows)
         (fun opts => Resolved (listRows opts rows))
         now iso localeDate.

End HostedStore.

(** A store answers a [create] with a note carrying the fields it was
    given. *)
Definition createEchoes (h : Host) : Prop :=
  forall f n, db_create h f = Resolved n ->
    Note.title n = c_title f /\ Note.content n = c_content f /\
    Note.user_id n = c_user_id f /\ Note.duration n = Some (c_duration f).

(** ** Sample data *)
Module Sample.

Definition me : User.t := User.mk "u1" "ann@example.org".

Definition other : User.t := User.mk "u2" "bob@example.org".

Definition wav (n : nat) : Blob.t :=
  Blob.mk "audio/webm" (repeat Byte.x41 n).

Definition reader (b : Blob.t) : Promise string :=
  Resolved "data:audio/wav;base64,QUFB".

Definition transcriber (audio : option string) (language : string)
  : Promise string :=
  Resolved "hello world".

Definition offline {A} (reason : string) : Promise A := Rejected reason.

Definition groceries : Note.t :=
  Note.mk "n1" "Groceries" "milk" "2024-01-01 08:00:00" "2024-01-03 09:30:00"
          "u1" None None.

Definition minutes : Note.t :=
  Note.mk "n2" "Minutes" "agenda" "2024-01-02 10:00:00" "2024-01-05 17:45:00"
          "u2" (Some 42) None.

Definition ideas : Note.t :=
  Note.mk "n3" "Ideas" "" "2024-01-04 11:00:00" "2024-01-04 11:00:00"
          "u1" None None.

Definition rows : list Note.t := [groceries; minutes; ideas].

(** A host in which every service answers. *)
Definition host : Host :=
  HostedStore.host rows "9f3c" (Resolved me) reader transcriber
                   1704790000000%N "2024-01-09T08:46:40.000Z" "1/9/2024".

(** The same host with the transcription service failing. *)
Definition hostNoAi : Host :=
  HostedStore.host rows "9f3c" (Resolved me) reader (fun _ _ => offline "503")
                   1704790000000%N "2024-01-09T08:46:40.000Z" "1/9/2024".

(** A signed-in component holding the store's notes, with a title typed. *)
Definition loaded : State :=
  mkState [minutes; ideas; groceries] None false false false 0 None []
          (Some me) " Hi ".

(** A render with two fragments in the buffer and five seconds elapsed. *)
Definition recorded : State :=
  mkState [minutes; ideas; groceries] None false false false 5 None
          [wav 3; wav 2] (Some me) " Hi ".

(** The scenario of the specification: two seconds of recording, a pause,
    three more seconds, stop. *)
Definition scenario : list Event :=
  [Mount; ClickStart (Resolved tt);
   Tick; Tick; ClickPause; Tick; ClickResume; Tick; Tick; Tick;
   ClickStop (wav 5)].

(** A second recording of one second after the scenario. *)
Definition secondRecording : list Event :=
  [TypeNewNoteTitle "Second"; ClickStart (Resolved tt); Tick;
   ClickStop (wav 1)].

End Sample.

(** ** The vocabulary of the statements *)

(** What it means for a step of the pipeline to fail in a run that reads
    the render [r]: the encoding, the transcription call, the missing owner
    when the fields of the note are built, or the store's create. *)
Inductive StepFails (h : Host) (r : State) : Prop :=
| encodingFails (e : string) :
    readAsDataURL h (audioBlob r) = Rejected e -> StepFails h r
| transcriptionFails (dataUrl e : string) :
    readAsDataURL h (audioBlob r) = Resolved dataUrl ->
    transcribeAudio h (base64Data dataUrl) "en" = Rejected e ->
    StepFails h r
| ownerMissing (dataUrl text : string) :
    readAsDataURL h (audioBlob r) = Resolved dataUrl ->
    transcribeAudio h (base64Data dataUrl) "en" = Resolved text ->
    user r = None ->
    StepFails h r
| createFails (dataUrl text e : string) (u : User.t) :
    readAsDataURL h (audioBlob r) = Resolved dataUrl ->
    transcribeAudio h (base64Data dataUrl) "en" = Resolved text ->
    user r = Some u ->
    db_create h (mkCreate (noteTitle h r) text (User.id u) (recordingTime r))
      = Rejected e ->
    StepFails h r.

(** The calls to the store's create in a log. *)
Definition isDbCreate (e : Effect) : bool :=
  match e with
  | DbCreate _ => true
  | _ => false
  end.

(** The calls to the transcription service in a log. *)
Definition isAiTranscribeAudio (e : Effect) : bool :=
  match e with
  | AiTranscribeAudio _ _ => true
  | _ => false
  end.

(** The state of the [i]-th recorder object, if it exists. *)
Definition recorderStateAt (w : World) (i : nat) : option RecordingState :=
  option_map MediaRecorder.state (nth_error (recorders w) i).

(** The state of the specification's machine a recorder state stands for. *)
Definition phaseOfState (s : RecordingState) : Spec.Phase :=
  match s with
  | recording => Spec.Recording
  | paused => Spec.Paused
  | inactive => Spec.Stopped
  end.

(** What the recorder controller and the timer read and write of the
    component state. *)
Definition recorderView (s : State) : bool * bool * nat * option nat :=
  (isRecording s, isPaused s, recordingTime s, mediaRecorder s).

(** A world stands for a session of the specification's machine: same
    state, same elapsed time, and the flags agree with the recorder. *)
Definition Simulates (w : World) (s : Spec.Session) : Prop :=
  flagsAgree w /\
  phaseOf w = Spec.phase s /\
  recordingTime (ui w) = Spec.elapsed s.

(** The predicate of the [filter] in [deleteNote] and the function of the
    [map] in [saveNote]. *)
Definition keepOnDelete (noteId : string) (note : Note.t) : bool :=
  negb (String.eqb (Note.id note) noteId).

Definition replaceOnSave (updatedNote note : Note.t) : Note.t :=
  if String.eqb (Note.id note) (Note.id updatedNote) then updatedNote else note.

(** The identifiers of a collection. *)
Definition ids (l : list Note.t) : list string := map Note.id l.

(** The calls to the store in a log. *)
Definition isStoreCall (e : Effect) : bool :=
  match e with
  | DbSql _ | DbList _ | DbCreate _ | DbUpdate _ _ | DbDelete _ => true
  | _ => false
  end.

(** Ordered by last update, most recent first: [b] is not updated after
    [a]. *)
Definition updatedNotAfter (a b : Note.t) : Prop :=
  String.leb (Note.updated_at b) (Note.updated_at a) = true.

(** The notes of an owner. *)
Definition ownedBy (owner : string) (l : list Note.t) : list Note.t :=
  filter (fun n => String.eqb (Note.user_id n) owner) l.

(** [a] may come before [b] in the ordering [ord]. *)
Definition orderedBy (ord : Column * Direction) (a b : Note.t) : Prop :=
  HostedStore.inOrder ord a b = true.

(** ** The rest of the component *)

(** [formatTime]; [seconds] is a non-negative integer below 2^53, where
    [Number.prototype.toString] is the decimal numeral. *)
Definition formatTime (seconds : N) : string :=
  let mins := (seconds / 60)%N in
  let secs := (seconds mod 60)%N in
  (JS.ofNumber mins ++ ":" ++ JS.padStart (JS.ofNumber secs) 2 "0")%string.

(** Reading a rendered time back: minutes and seconds around the colon. *)
Definition parseTime (s : string) : option N :=
  match JS.split ":" s with
  | [mins; secs] =>
      match JS.toNumber mins, JS.toNumber secs with
      | Some m, Some k => Some (60 * m + k)%N
      | _, _ => None
      end
  | _ => None
  end.

(** The recorder delivers the blobs [ds] one after the other. *)
Definition deliver (ds : list Blob.t) (live : State) : State :=
  fold_left (fun s d => ondataavailable d s) ds live.

(** What the rendered component offers in a state: the sign-in card has no
    control at all; the title input and the Start button (disabled while
    transcribing) are shown while not recording, Pause or Resume and Stop
    while recording; a note of the list can be clicked; the editor's inputs
    and its Save and Delete buttons are shown for an active note.  The
    mount effect and the interval are not controls. *)
Definition offered (s : State) (ev : Event) : bool :=
  match ev with
  | Mount | Tick => true
  | _ =>
      match user s with
      | None => false
      | Some _ =>
          match ev with
          | ClickStart _ => negb (isRecording s) && negb (isTranscribing s)
          | TypeNewNoteTitle _ => negb (isRecording s)
          | ClickPause => isRecording s && negb (isPaused s)
          | ClickResume => isRecording s && isPaused s
          | ClickStop _ => isRecording s
          | SelectNote i => i <? length (notes s)
          | ClickNew => true
          | EditTitle _ | EditContent _ | ClickSave | ClickDelete =>
              match currentNote s with
              | Some _ => true
              | None => false
              end
          | Mount | Tick => true
          end
      end
  end.

(** Every event of the sequence is offered when it happens. *)
Fixpoint allOffered (h : Host) (evs : list Event) (w : World) : bool :=
  match evs with
  | [] => true
  | ev :: rest => offered (ui w) ev && allOffered h rest (fst (step h ev w))
  end.

(** The renders the recorder objects keep. *)
Definition renders (w : World) : list State :=
  map MediaRecorder.onstop (recorders w).

(** Every fragment of a buffer holds data. *)
Definition holdsData (chunks : list Blob.t) : Prop :=
  Forall (fun b => 0 < Blob.size b) chunks.

(** The buffer of the component and the buffers of the kept renders hold
    only fragments with data. *)
Definition buffersHoldData (w : World) : Prop :=
  holdsData (audioChunks (ui w)) /\
  Forall (fun r => holdsData (audioChunks r)) (renders w).

(** Every recorder but the one the component refers to is inactive. *)
Definition othersInactive (w : World) : Prop :=
  forall j rec,
    nth_error (recorders w) j = Some rec ->
    MediaRecorder.state rec <> inactive ->
    mediaRecorder (ui w) = Some j.

(** Every kept render belongs to a signed-in user. *)
Definition rendersSignedIn (w : World) : Prop :=
  Forall (fun r => user r <> None) (renders w).

(** The events between the start and the stop of one recording. *)
Definition duringRecording (ev : Event) : bool :=
  match ev with
  | ClickStart _ | ClickStop _ => false
  | _ => true
  end.

(** The payloads handed to the file reader in a log. *)
Definition payloads (log : list Effect) : list Blob.t :=
  flat_map (fun e => match e with ReadAsDataURL b => [b] | _ => [] end) log.

(** The statements sent by [initializeDatabase] in a log. *)
Definition statements (log : list Effect) : list Statement :=
  flat_map (fun e => match e with DbSql st => [st] | _ => [] end) log.

(** The component refers to recorder [i], which is recording or paused and
    keeps the render [r0]. *)
Definition recordingWith (i : nat) (r0 : State) (w : World) : Prop :=
  mediaRecorder (ui w) = Some i /\
  exists rec,
    nth_error (recorders w) i = Some rec /\
    MediaRecorder.onstop rec = r0 /\
    MediaRecorder.state rec <> inactive.

(** The effects of mounting: the two statements, the request for the
    user, and the console. *)
Definition isMountEffect (e : Effect) : bool :=
  match e with
  | AuthMe | DbSql _ | ConsoleLog _ | ConsoleError _ => true
  | _ => false
  end.

(** * Properties *)

(** ** The transcription pipeline *)

Lemma transcribeAndCreate_resolved (h : Host) (r : State)
      (dataUrl text : string) (u : User.t) (newNote : Note.t) :
  readAsDataURL h (audioBlob r) = Resolved dataUrl ->
  transcribeAudio h (base64Data dataUrl) "en" = Resolved text ->
  user r = Some u ->
  db_create h (mkCreate (noteTitle h r) text (User.id u) (recordingTime r))
    = Resolved newNote ->
  transcribeAndCreate h r =
    ([ReadAsDataURL (audioBlob r);
      AiTranscribeAudio (base64Data dataUrl) "en";
      DbCreate (mkCreate (noteTitle h r) text (User.id u) (recordingTime r))],
     Resolved newNote).
Proof.
  intros Hread Hai Hu Hdb. unfold transcribeAndCreate, await, bind.
  rewrite Hread, Hai, Hu. cbn. rewrite Hdb. reflexivity.
Qed.

Lemma transcribeAndCreate_rejected (h : Host) (r : State) :
  StepFails h r -> exists e, snd (transcribeAndCreate h r) = Rejected e.
Proof.
  intros [e Hread | dataUrl e Hread Hai | dataUrl text Hread Hai Hu
          | dataUrl text e u Hread Hai Hu Hdb];
    unfold transcribeAndCreate, await, bind; rewrite Hread.
  - now exists e.
  - rewrite Hai. now exists e.
  - rewrite Hai, Hu. cbn. eauto.
  - rewrite Hai, Hu. cbn. rewrite Hdb. now exists e.
Qed.

Lemma transcribeAndCreate_rejected_inv (h : Host) (r : State) (e : string) :
  snd (transcribeAndCreate h r) = Rejected e -> StepFails h r.
Proof.
  unfold transcribeAndCreate, await, bind.
  destruct (readAsDataURL h (audioBlob r)) as [dataUrl | e1] eqn:Hread.
  2:{ intros _. eapply encodingFails; eauto. }
  destruct (transcribeAudio h (base64Data dataUrl) "en") as [text | e2] eqn:Hai.
  2:{ intros _. eapply transcriptionFails; eauto. }
  destruct (user r) as [u |] eqn:Hu.
  2:{ intros _. eapply ownerMissing; eauto. }
  cbn.
  destruct (db_create h _) as [n | e3] eqn:Hdb; cbn.
  - discriminate.
  - intros _. eapply createFails; eauto.
Qed.

(** The only create call of the body is its last step. *)
Lemma transcribeAndCreate_create_calls (h : Host) (r : State) (f : CreateFields) :
  In (DbCreate f) (fst (transcribeAndCreate h r)) ->
  db_create h f = snd (transcribeAndCreate h r).
Proof.
  unfold transcribeAndCreate, await, bind.
  destruct (readAsDataURL h (audioBlob r)) as [dataUrl | e1].
  2:{ cbn. intros [Hf | []]. discriminate. }
  destruct (transcribeAudio h (base64Data dataUrl) "en") as [text | e2].
  2:{ cbn. intros [Hf | [Hf | []]]; discriminate. }
  destruct (user r) as [u |].
  2:{ cbn. intros [Hf | [Hf | []]]; discriminate. }
  cbn. destruct (db_create h _) as [n | e3] eqn:Hdb; cbn;
    intros [Hf | [Hf | [Hf | []]]]; try discriminate;
    injection Hf as Hf; subst f; cbn; congruence.
Qed.

(** A failed run changes only the transcribing flag and the buffer. *)
Lemma processRecording_rejected (h : Host) (r live : State) (e : string) :
  audioChunks r <> [] ->
  snd (transcribeAndCreate h r) = Rejected e ->
  processRecording h r live =
    (setAudioChunks [] (setIsTranscribing false (setIsTranscribing true live)),
     Toast loading "Transcribing audio..."
       :: fst (transcribeAndCreate h r)
       ++ [ConsoleError "Error transcribing audio:";
           Toast error "Failed to transcribe audio"]).
Proof.
  intros Hne Hout. unfold processRecording.
  destruct (audioChunks r) as [| c cs]; [congruence |].
  destruct (transcribeAndCreate h r) as [calls outcome]. cbn in Hout. subst.
  reflexivity.
Qed.

Lemma processRecording_resolved (h : Host) (r live : State) (newNote : Note.t) :
  audioChunks r <> [] ->
  snd (transcribeAndCreate h r) = Resolved newNote ->
  processRecording h r live =
    (setAudioChunks []
       (setIsTranscribing false
          (setNewNoteTitle ""
             (setCurrentNote (Some newNote)
                (setNotes (newNote :: notes live)
                   (setIsTranscribing true live))))),
     Toast loading "Transcribing audio..."
       :: fst (transcribeAndCreate h r)
       ++ [Toast success "Recording transcribed successfully!"]).
Proof.
  intros Hne Hout. unfold processRecording.
  destruct (audioChunks r) as [| c cs]; [congruence |].
  destruct (transcribeAndCreate h r) as [calls outcome]. cbn in Hout. subst.
  reflexivity.
Qed.

(** The pipeline never touches the recording flags, the timer or the
    recorder reference. *)
Lemma processRecording_recorder_fields (h : Host) (r live : State) :
  let live' := fst (processRecording h r live) in
  isRecording live' = isRecording live /\
  isPaused live' = isPaused live /\
  recordingTime live' = recordingTime live /\
  mediaRecorder live' = mediaRecorder live.
Proof.
  unfold processRecording.
  destruct (audioChunks r); [cbn; auto |].
  destruct (transcribeAndCreate h r) as [calls [n | e]]; cbn; auto.
Qed.

(** C1 (as amended).  A run of the pipeline that reads a non-empty buffer
    and in which the encoding, the transcription call and the store's create
    all succeed makes exactly one create call and produces exactly one new
    note, the store's answer: its content is the returned transcript, its
    duration is the recording time the run reads, its owner is the signed-in
    user, and its title is the typed title with the surrounding white space
    removed when that is not empty, and otherwise "Voice Note " followed by
    the current date.  The note is put in front of the notes collection and
    becomes the active note. *)
Theorem C1_successful_run_adds_one_note
        (h : Host) (r live : State)
        (dataUrl text : string) (u : User.t) (newNote : Note.t) :
  audioChunks r <> [] ->
  readAsDataURL h (audioBlob r) = Resolved dataUrl ->
  transcribeAudio h (base64Data dataUrl) "en" = Resolved text ->
  user r = Some u ->
  db_create h (mkCreate (noteTitle h r) text (User.id u) (recordingTime r))
    = Resolved newNote ->
  createEchoes h ->
  let live' := fst (processRecording h r live) in
  let log := snd (processRecording h r live) in
  notes live' = newNote :: notes live /\
  currentNote live' = Some newNote /\
  length (filter isDbCreate log) = 1 /\
  Note.content newNote = text /\
  Note.duration newNote = Some (recordingTime r) /\
  Note.user_id newNote = User.id u /\
  Note.title newNote =
    (if String.eqb (JS.trim (newNoteTitle r)) ""
     then ("Voice Note " ++ date_toLocaleDateString h)%string
     else JS.trim (newNoteTitle r)).
Proof.
  intros Hne Hread Hai Hu Hdb Hecho live' log.
  pose proof (transcribeAndCreate_resolved h r dataUrl text u newNote
                Hread Hai Hu Hdb) as Hbody.
  assert (Hrun := processRecording_resolved h r live newNote Hne).
  rewrite Hbody in Hrun. specialize (Hrun eq_refl).
  subst live' log. rewrite Hrun. cbn.
  destruct (Hecho _ _ Hdb) as (Ht & Hc & Ho & Hd). cbn in Ht, Hc, Ho, Hd.
  repeat split; auto.
  rewrite Ht. unfold noteTitle, JS.or.
  destruct (JS.trim (newNoteTitle r)); reflexivity.
Qed.

Lemma sample_host_echoes : createEchoes Sample.host.
Proof.
  intros f n Hn. cbn in Hn. injection Hn as <-. cbn. auto.
Qed.

Lemma C1_successful_run_adds_one_note_witness :
  let newNote :=
    Note.mk "9f3c" "Hi" "hello world" "2024-01-09T08:46:40.000Z"
            "2024-01-09T08:46:40.000Z" "u1" (Some 5) None in
  notes (fst (processRecording Sample.host Sample.recorded Sample.loaded))
    = newNote :: notes Sample.loaded /\
  currentNote (fst (processRecording Sample.host Sample.recorded Sample.loaded))
    = Some newNote.
Proof.
  intro newNote.
  destruct (C1_successful_run_adds_one_note
              Sample.host Sample.recorded Sample.loaded
              "data:audio/wav;base64,QUFB" "hello world" Sample.me newNote)
    as (Hnotes & Hcur & _).
  - discriminate.
  - reflexivity.
  - reflexivity.
  - reflexivity.
  - reflexivity.
  - exact sample_host_echoes.
  - split; assumption.
Defined.

(** C1 as it was stated fails on the title: a typed title that is not blank
    but has white space around it is not the title of the note. *)
Lemma C1_title_is_trimmed_counterexample :
  newNoteTitle Sample.recorded = " Hi " /\
  JS.trim (newNoteTitle Sample.recorded) <> "" /\
  exists n,
    currentNote (fst (processRecording Sample.host Sample.recorded Sample.loaded))
      = Some n /\
    Note.title n = "Hi" /\
    Note.title n <> newNoteTitle Sample.recorded.
Proof.
  split; [reflexivity |]. split; [discriminate |].
  eexists. split; [reflexivity |]. split; [reflexivity | discriminate].
Qed.

(** A run of the pipeline that reads an empty buffer does nothing: no call
    is made (no transcription request, no create), and the state, so the
    notes collection and the active note, is what it was. *)
Lemma processRecording_empty_buffer (h : Host) (r live : State) :
  audioChunks r = [] ->
  processRecording h r live = (live, []).
Proof.
  intros Hempty. unfold processRecording. now rewrite Hempty.
Qed.

(** C5.  When a step of a run on a non-empty buffer fails, the error is
    reported (console and notice), the store's create is not called unless
    it is the failing step, and the notes collection and the active note are
    what they were before the run. *)
Theorem C5_failed_run_leaves_no_note (h : Host) (r live : State) :
  audioChunks r <> [] ->
  StepFails h r ->
  let live' := fst (processRecording h r live) in
  let log := snd (processRecording h r live) in
  notes live' = notes live /\
  currentNote live' = currentNote live /\
  In (Toast error "Failed to transcribe audio") log /\
  In (ConsoleError "Error transcribing audio:") log /\
  forall f, In (DbCreate f) log -> exists e, db_create h f = Rejected e.
Proof.
  intros Hne Hfail live' log.
  destruct (transcribeAndCreate_rejected h r Hfail) as [e He].
  subst live' log. rewrite (processRecording_rejected h r live e Hne He).
  cbn [fst snd].
  split; [reflexivity |]. split; [reflexivity |].
  split; [right; apply in_or_app; right; cbn; auto |].
  split; [right; apply in_or_app; right; cbn; auto |].
  intros f [Hf | Hf]; [discriminate |].
  apply in_app_or in Hf. destruct Hf as [Hf | Hf].
  - exists e. rewrite <- He. now apply transcribeAndCreate_create_calls.
  - cbn in Hf. destruct Hf as [Hf | [Hf | []]]; discriminate.
Qed.

Lemma C5_failed_run_leaves_no_note_witness :
  notes (fst (processRecording Sample.hostNoAi Sample.recorded Sample.loaded))
    = notes Sample.loaded /\
  currentNote
    (fst (processRecording Sample.hostNoAi Sample.recorded Sample.loaded))
    = currentNote Sample.loaded.
Proof.
  destruct (C5_failed_run_leaves_no_note
              Sample.hostNoAi Sample.recorded Sample.loaded)
    as (Hnotes & Hcur & _).
  - discriminate.
  - apply (transcriptionFails _ _ "data:audio/wav;base64,QUFB" "503");
      reflexivity.
  - split; assumption.
Defined.

(** C10.  After a run of the pipeline on a non-empty buffer, whatever its
    outcome, the buffer is empty and the transcribing flag is off; a
    recording started next begins with both so. *)
Theorem C10_run_resets_buffer_and_flag (h : Host) (r live : State) :
  audioChunks r <> [] ->
  let live' := fst (processRecording h r live) in
  audioChunks live' = [] /\
  isTranscribing live' = false /\
  forall (recs : list MediaRecorder.t) (stream : unit),
    let w := fst (startRecording (Resolved stream) (mkWorld live' recs)) in
    audioChunks (ui w) = [] /\ isTranscribing (ui w) = false.
Proof.
  intros Hne. unfold processRecording.
  destruct (audioChunks r) as [| c cs]; [congruence |].
  destruct (transcribeAndCreate h r) as [calls [n | e]]; cbn; auto.
Qed.

Lemma C10_run_resets_buffer_and_flag_witness :
  audioChunks (fst (processRecording Sample.hostNoAi Sample.recorded Sample.loaded))
    = [] /\
  isTranscribing
    (fst (processRecording Sample.hostNoAi Sample.recorded Sample.loaded))
    = false.
Proof.
  destruct (C10_run_resets_buffer_and_flag
              Sample.hostNoAi Sample.recorded Sample.loaded)
    as (Hbuf & Hflag & _).
  - discriminate.
  - split; assumption.
Defined.

(** ** The recorder controller *)

Section RecorderObjects.

Variables (s : RecordingState) (i : nat).

Lemma setRecorderState_here (recs : list MediaRecorder.t) :
  nth_error (setRecorderState i s recs) i =
  option_map (fun rec => MediaRecorder.mk s (MediaRecorder.onstop rec))
             (nth_error recs i).
Proof.
  revert recs. induction i as [| j IH]; intros [| rec rest]; cbn; auto.
Qed.

Lemma setRecorderState_elsewhere (recs : list MediaRecorder.t) (j : nat) :
  i <> j -> nth_error (setRecorderState i s recs) j = nth_error recs j.
Proof.
  revert recs j. induction i as [| k IH]; intros [| rec rest] [| j] Hij;
    cbn; auto; try congruence.
Qed.

End RecorderObjects.

Lemma currentRecorder_inv (w : World) (i : nat) (rec : MediaRecorder.t) :
  currentRecorder w = Some (i, rec) ->
  mediaRecorder (ui w) = Some i /\ nth_error (recorders w) i = Some rec.
Proof.
  unfold currentRecorder.
  destruct (mediaRecorder (ui w)) as [k |]; [| discriminate].
  destruct (nth_error (recorders w) k) as [rec' |] eqn:Hk; [| discriminate].
  intros H. injection H as <- <-. auto.
Qed.

Lemma phaseOf_eq (w : World) (i : nat) (rec : MediaRecorder.t) :
  mediaRecorder (ui w) = Some i ->
  nth_error (recorders w) i = Some rec ->
  phaseOf w = phaseOfState (MediaRecorder.state rec).
Proof.
  intros Hm Hi. unfold phaseOf, currentRecorder. rewrite Hm, Hi.
  now destruct (MediaRecorder.state rec).
Qed.

Lemma phaseOf_current (w : World) (i : nat) (rec : MediaRecorder.t) :
  currentRecorder w = Some (i, rec) ->
  phaseOf w = phaseOfState (MediaRecorder.state rec).
Proof.
  intros H. destruct (currentRecorder_inv w i rec H). eapply phaseOf_eq; eauto.
Qed.

Lemma phaseOf_no_recorder (w : World) :
  currentRecorder w = None -> phaseOf w = Spec.Idle.
Proof. unfold phaseOf. now intros ->. Qed.

(** The phase after the current recorder's state is set. *)
Lemma phaseOf_setRecorderState (w : World) (i : nat) (rec : MediaRecorder.t)
      (s : RecordingState) (live : State) :
  currentRecorder w = Some (i, rec) ->
  mediaRecorder live = mediaRecorder (ui w) ->
  phaseOf (mkWorld live (setRecorderState i s (recorders w))) = phaseOfState s.
Proof.
  intros H Hlive. destruct (currentRecorder_inv w i rec H) as [Hm Hi].
  eapply (phaseOf_eq _ i (MediaRecorder.mk s (MediaRecorder.onstop rec))).
  - cbn. congruence.
  - cbn. rewrite setRecorderState_here, Hi. reflexivity.
Qed.

(** The phase depends on the component state only through the recorder
    reference. *)
Lemma phaseOf_same_recorder (w : World) (live : State) :
  mediaRecorder live = mediaRecorder (ui w) ->
  phaseOf (mkWorld live (recorders w)) = phaseOf w.
Proof.
  intros H. unfold phaseOf, currentRecorder. cbn. now rewrite H.
Qed.

Lemma pauseRecording_spec (w : World) :
  match phaseOf w with
  | Spec.Recording =>
      phaseOf (fst (pauseRecording w)) = Spec.Paused /\
      ui (fst (pauseRecording w)) = setIsPaused true (ui w)
  | _ => pauseRecording w = (w, [])
  end.
Proof.
  unfold pauseRecording.
  destruct (currentRecorder w) as [[i rec] |] eqn:Hcur.
  - rewrite (phaseOf_current w i rec Hcur).
    destruct (MediaRecorder.state rec); cbn; auto.
    split; [| reflexivity].
    now apply (phaseOf_setRecorderState w i rec paused).
  - now rewrite (phaseOf_no_recorder w Hcur).
Qed.

Lemma resumeRecording_spec (w : World) :
  match phaseOf w with
  | Spec.Paused =>
      phaseOf (fst (resumeRecording w)) = Spec.Recording /\
      ui (fst (resumeRecording w)) = setIsPaused false (ui w)
  | _ => resumeRecording w = (w, [])
  end.
Proof.
  unfold resumeRecording.
  destruct (currentRecorder w) as [[i rec] |] eqn:Hcur.
  - rewrite (phaseOf_current w i rec Hcur).
    destruct (MediaRecorder.state rec); cbn; auto.
    split; [| reflexivity].
    now apply (phaseOf_setRecorderState w i rec recording).
  - now rewrite (phaseOf_no_recorder w Hcur).
Qed.

Lemma stopRecording_spec (w : World) :
  match phaseOf w with
  | Spec.Recording | Spec.Paused =>
      phaseOf (stopRecording w) = Spec.Stopped /\
      ui (stopRecording w) = setIsPaused false (setIsRecording false (ui w))
  | _ => stopRecording w = w
  end.
Proof.
  unfold stopRecording.
  destruct (currentRecorder w) as [[i rec] |] eqn:Hcur.
  - rewrite (phaseOf_current w i rec Hcur).
    destruct (MediaRecorder.state rec); cbn; auto;
      (split; [| reflexivity]);
      now apply (phaseOf_setRecorderState w i rec inactive).
  - now rewrite (phaseOf_no_recorder w Hcur).
Qed.

(** The Stop button outside Recording and Paused: nothing happens, and the
    pipeline is not run. *)
Lemma clickStop_not_active (h : Host) (final : Blob.t) (w : World) :
  match phaseOf w with
  | Spec.Recording | Spec.Paused => True
  | _ => clickStop h final w = (w, [])
  end.
Proof.
  unfold clickStop.
  destruct (currentRecorder w) as [[i rec] |] eqn:Hcur.
  - rewrite (phaseOf_current w i rec Hcur).
    now destruct (MediaRecorder.state rec).
  - now rewrite (phaseOf_no_recorder w Hcur).
Qed.

(** The recorder objects after the Stop button are those after
    [stopRecording]. *)
Lemma clickStop_recorders (h : Host) (final : Blob.t) (w : World) :
  recorders (fst (clickStop h final w)) = recorders (stopRecording w).
Proof.
  unfold clickStop, stopRecording.
  destruct (currentRecorder w) as [[i rec] |]; [| reflexivity].
  destruct (MediaRecorder.state rec); cbn; try reflexivity;
    now destruct (onstop h rec _).
Qed.

(** A handler of the component state leaves the recorder objects alone. *)
Lemma onUi_recorders (f : State -> State * list Effect) (w : World) :
  recorders (fst (onUi f w)) = recorders w.
Proof. unfold onUi. now destruct (f (ui w)). Qed.

Lemma onUi_ui (f : State -> State * list Effect) (w : World) :
  ui (fst (onUi f w)) = fst (f (ui w)).
Proof. unfold onUi. now destruct (f (ui w)). Qed.

(** A recorder that is inactive is not the target of any state change. *)
Lemma setRecorderState_keeps_inactive (w : World) (i j : nat)
      (rec : MediaRecorder.t) (s : RecordingState) :
  currentRecorder w = Some (i, rec) ->
  MediaRecorder.state rec <> inactive ->
  recorderStateAt w j = Some inactive ->
  option_map MediaRecorder.state
             (nth_error (setRecorderState i s (recorders w)) j) = Some inactive.
Proof.
  intros Hcur Hact Hj. destruct (currentRecorder_inv w i rec Hcur) as [_ Hi].
  destruct (Nat.eq_dec i j) as [-> | Hij].
  - unfold recorderStateAt in Hj. rewrite Hi in Hj. cbn in Hj. congruence.
  - now rewrite setRecorderState_elsewhere.
Qed.

Lemma step_keeps_inactive (h : Host) (ev : Event) (w : World) (j : nat) :
  recorderStateAt w j = Some inactive ->
  recorderStateAt (fst (step h ev w)) j = Some inactive.
Proof.
  intros Hj.
  assert (Hstop : recorderStateAt (stopRecording w) j = Some inactive).
  { unfold stopRecording.
    destruct (currentRecorder w) as [[i rec] |] eqn:Hcur; [| exact Hj].
    destruct (MediaRecorder.state rec) eqn:Hs; [exact Hj | |];
      unfold recorderStateAt; cbn;
      apply (setRecorderState_keeps_inactive w i j rec); auto; congruence. }
  destruct ev; cbn [step];
    try (unfold recorderStateAt; rewrite onUi_recorders; exact Hj).
  - (* ClickStart *)
    unfold startRecording. destruct media as [stream | e]; [| exact Hj].
    unfold recorderStateAt in *. cbn.
    destruct (nth_error (recorders w) j) as [rec |] eqn:Hn; [| discriminate].
    rewrite nth_error_app1; [rewrite Hn; exact Hj |].
    apply nth_error_Some. congruence.
  - (* ClickPause *)
    unfold pauseRecording.
    destruct (currentRecorder w) as [[i rec] |] eqn:Hcur; [| exact Hj].
    destruct (MediaRecorder.state rec) eqn:Hs; try exact Hj.
    unfold recorderStateAt; cbn.
    apply (setRecorderState_keeps_inactive w i j rec); auto; congruence.
  - (* ClickResume *)
    unfold resumeRecording.
    destruct (currentRecorder w) as [[i rec] |] eqn:Hcur; [| exact Hj].
    destruct (MediaRecorder.state rec) eqn:Hs; try exact Hj.
    unfold recorderStateAt; cbn.
    apply (setRecorderState_keeps_inactive w i j rec); auto; congruence.
  - (* ClickStop *)
    unfold recorderStateAt in *. now rewrite clickStop_recorders.
Qed.

Lemma run_keeps_inactive (h : Host) (evs : list Event) (w : World) (j : nat) :
  recorderStateAt w j = Some inactive ->
  recorderStateAt (fst (run h evs w)) j = Some inactive.
Proof.
  revert w. induction evs as [| ev rest IH]; intros w Hj; [exact Hj |].
  cbn [run]. pose proof (step_keeps_inactive h ev w j Hj) as Hs.
  destruct (step h ev w) as [w1 log1]. cbn in Hs.
  specialize (IH w1 Hs). destruct (run h rest w1) as [w2 log2]. exact IH.
Qed.

(** C2.  The recorder operations follow the state machine.  In Recording,
    pause leads to Paused (setting the paused flag) and resume does
    nothing; in Paused, resume leads to Recording (clearing the flag) and
    pause does nothing; stop leads from Recording and from Paused to
    Stopped and clears both flags; in Idle and in Stopped none of the three
    does anything.  A recorder that has stopped stays inactive whatever
    happens next. *)
Theorem C2_recorder_state_machine (w : World) :
  match phaseOf w with
  | Spec.Recording =>
      phaseOf (fst (pauseRecording w)) = Spec.Paused /\
      isPaused (ui (fst (pauseRecording w))) = true /\
      resumeRecording w = (w, []) /\
      phaseOf (stopRecording w) = Spec.Stopped /\
      isRecording (ui (stopRecording w)) = false /\
      isPaused (ui (stopRecording w)) = false
  | Spec.Paused =>
      phaseOf (fst (resumeRecording w)) = Spec.Recording /\
      isPaused (ui (fst (resumeRecording w))) = false /\
      pauseRecording w = (w, []) /\
      phaseOf (stopRecording w) = Spec.Stopped /\
      isRecording (ui (stopRecording w)) = false /\
      isPaused (ui (stopRecording w)) = false
  | Spec.Idle | Spec.Stopped =>
      pauseRecording w = (w, []) /\
      resumeRecording w = (w, []) /\
      stopRecording w = w /\
      forall (h : Host) (final : Blob.t), clickStop h final w = (w, [])
  end
  /\
  forall (h : Host) (evs : list Event) (w' : World) (j : nat),
    recorderStateAt w' j = Some inactive ->
    recorderStateAt (fst (run h evs w')) j = Some inactive.
Proof.
  split; [| intros h evs w' j; apply run_keeps_inactive].
  pose proof (pauseRecording_spec w) as Hp.
  pose proof (resumeRecording_spec w) as Hr.
  pose proof (stopRecording_spec w) as Hs.
  assert (Hc := fun h final => clickStop_not_active h final w).
  destruct (phaseOf w).
  - auto.
  - destruct Hp as [Hp1 Hp2], Hs as [Hs1 Hs2].
    rewrite Hp2, Hs2. cbn. repeat split; auto.
  - destruct Hr as [Hr1 Hr2], Hs as [Hs1 Hs2].
    rewrite Hr2, Hs2. cbn. repeat split; auto.
  - auto.
Qed.

(** ** The elapsed time *)

Lemma loadNotes_recorderView (h : Host) (live : State) :
  recorderView (fst (loadNotes h live)) = recorderView live.
Proof. unfold loadNotes. now destruct (db_list h _). Qed.

Lemma saveNote_recorderView (h : Host) (r live : State) :
  recorderView (fst (saveNote h r live)) = recorderView live.
Proof.
  unfold saveNote. destruct (currentNote r); [| reflexivity].
  now destruct (db_update h _ _).
Qed.

Lemma deleteNote_recorderView (h : Host) (noteId : string) (r live : State) :
  recorderView (fst (deleteNote h noteId r live)) = recorderView live.
Proof.
  unfold deleteNote. destruct (db_delete h noteId); [| reflexivity].
  cbn. now destruct (currentNoteHasId r noteId).
Qed.

Lemma processRecording_recorderView (h : Host) (r live : State) :
  recorderView (fst (processRecording h r live)) = recorderView live.
Proof.
  destruct (processRecording_recorder_fields h r live) as (H1 & H2 & H3 & H4).
  unfold recorderView. now rewrite H1, H2, H3, H4.
Qed.

Lemma ondataavailable_recorderView (data : Blob.t) (live : State) :
  recorderView (ondataavailable data live) = recorderView live.
Proof. unfold ondataavailable. now destruct (0 <? Blob.size data). Qed.

(** The events that are neither recorder operations nor ticks leave the
    recorder, its flags and the elapsed time alone. *)
Lemma step_other_events (h : Host) (ev : Event) (w : World) :
  match ev with
  | ClickStart _ | ClickPause | ClickResume | ClickStop _ | Tick => True
  | _ =>
      recorders (fst (step h ev w)) = recorders w /\
      recorderView (ui (fst (step h ev w))) = recorderView (ui w)
  end.
Proof.
  destruct ev; cbn [step]; try exact I;
    (split; [apply onUi_recorders | rewrite onUi_ui]); cbn [fst].
  - unfold loadUserAndNotes.
    destruct (auth_me h) as [currentUser | e]; [| reflexivity].
    pose proof (loadNotes_recorderView h (setUser (Some currentUser) (ui w)))
      as Hview.
    destruct (loadNotes h _) as [live log]. exact Hview.
  - reflexivity.
  - now destruct (nth_error (notes (ui w)) i).
  - unfold editTitle. now destruct (currentNote (ui w)).
  - unfold editContent. now destruct (currentNote (ui w)).
  - reflexivity.
  - apply saveNote_recorderView.
  - destruct (currentNote (ui w)); [apply deleteNote_recorderView | reflexivity].
Qed.

Lemma simulates_same_view (w w' : World) (s : Spec.Session) :
  recorders w' = recorders w ->
  recorderView (ui w') = recorderView (ui w) ->
  Simulates w s -> Simulates w' s.
Proof.
  intros Hrecs Hview (Hflags & Hphase & Htime).
  unfold recorderView in Hview. injection Hview as Hr Hp Ht Hm.
  assert (Hph : phaseOf w' = phaseOf w).
  { destruct w' as [live recs]. cbn in *. subst recs.
    now apply phaseOf_same_recorder. }
  unfold Simulates, flagsAgree. rewrite Hph, Hr, Hp, Ht. auto.
Qed.

(** The world after an effective Stop button. *)
Lemma clickStop_active (h : Host) (final : Blob.t) (w : World) :
  match phaseOf w with
  | Spec.Recording | Spec.Paused =>
      recorders (fst (clickStop h final w)) = recorders (stopRecording w) /\
      recorderView (ui (fst (clickStop h final w)))
        = recorderView (ui (stopRecording w))
  | _ => True
  end.
Proof.
  pose proof (clickStop_recorders h final w) as Hrecs.
  unfold clickStop in *.
  destruct (currentRecorder w) as [[i rec] |] eqn:Hcur.
  - rewrite (phaseOf_current w i rec Hcur).
    destruct (MediaRecorder.state rec) eqn:Hs; cbn [phaseOfState]; auto;
      (split; [exact Hrecs |]);
      unfold onstop;
      pose proof (processRecording_recorderView h (MediaRecorder.onstop rec)
                    (ondataavailable final (ui (stopRecording w)))) as Hv;
      destruct (processRecording h _ _) as [live log]; cbn in *;
      now rewrite Hv, ondataavailable_recorderView.
  - now rewrite (phaseOf_no_recorder w Hcur).
Qed.

(** One step of the component follows one step of the specification's
    machine. *)
Lemma step_simulates (h : Host) (ev : Event) (w : World) (s s' : Spec.Session) :
  Simulates w s ->
  Spec.step ev s = Some s' ->
  Simulates (fst (step h ev w)) s'.
Proof.
  intros Hsim Hstep.
  pose proof (step_other_events h ev w) as Hother.
  destruct ev; cbn [Spec.step] in Hstep;
    try (injection Hstep as <-; destruct Hother as [Hrecs Hview];
         now apply (simulates_same_view w)).
  - (* ClickStart *)
    destruct (Spec.phase s) eqn:Hph; try discriminate;
      destruct media as [stream | e]; injection Hstep as <-; cbn;
      try exact Hsim;
      (split; [| split; [| reflexivity]]);
      unfold flagsAgree, phaseOf, currentRecorder; cbn;
      rewrite nth_error_app2, Nat.sub_diag by lia; cbn; auto.
  - (* ClickPause *)
    destruct Hsim as (Hflags & Hphase & Htime).
    pose proof (pauseRecording_spec w) as Hp. rewrite Hphase in Hp.
    destruct (Spec.phase s) eqn:Hph; try discriminate.
    injection Hstep as <-. cbn [step]. destruct Hp as [Hp1 Hp2].
    unfold Simulates, flagsAgree. rewrite Hp1, Hp2. cbn.
    destruct Hflags as [Hf1 Hf2]. rewrite Hphase in Hf1. auto.
  - (* ClickResume *)
    destruct Hsim as (Hflags & Hphase & Htime).
    pose proof (resumeRecording_spec w) as Hp. rewrite Hphase in Hp.
    destruct (Spec.phase s) eqn:Hph; try discriminate.
    injection Hstep as <-. cbn [step]. destruct Hp as [Hp1 Hp2].
    unfold Simulates, flagsAgree. rewrite Hp1, Hp2. cbn.
    destruct Hflags as [Hf1 Hf2]. rewrite Hphase in Hf1. auto.
  - (* ClickStop *)
    destruct Hsim as (Hflags & Hphase & Htime).
    pose proof (stopRecording_spec w) as Hp. rewrite Hphase in Hp.
    pose proof (clickStop_active h final w) as Hc. rewrite Hphase in Hc.
    cbn [step].
    destruct (Spec.phase s) eqn:Hph; try discriminate;
      injection Hstep as <-; destruct Hp as [Hp1 Hp2]; destruct Hc as [Hc1 Hc2];
      apply (simulates_same_view (stopRecording w)); auto;
      unfold Simulates, flagsAgree; rewrite Hp1, Hp2; cbn; auto.
  - (* Tick *)
    destruct Hsim as (Hflags & Hphase & Htime). cbn [step].
    assert (Hph : phaseOf (fst (onUi (fun live => (tick live, [])) w)) = phaseOf w).
    { unfold onUi. cbn. apply phaseOf_same_recorder.
      unfold tick. now destruct (isRecording (ui w) && negb (isPaused (ui w))). }
    unfold Simulates, flagsAgree. rewrite Hph. unfold onUi. cbn. unfold tick.
    destruct Hflags as [Hf1 Hf2]. rewrite Hf1, Hf2, Hphase in *.
    destruct (Spec.phase s) eqn:Hp; injection Hstep as <-; cbn;
      rewrite ?Hf1, ?Hf2; repeat split; auto; lia.
Qed.

Lemma run_simulates (h : Host) (evs : list Event) (w : World) (s s' : Spec.Session) :
  Simulates w s ->
  Spec.run evs s = Some s' ->
  Simulates (fst (run h evs w)) s'.
Proof.
  revert w s. induction evs as [| ev rest IH]; intros w s Hsim Hrun.
  - cbn in *. now injection Hrun as <-.
  - cbn [Spec.run] in Hrun. destruct (Spec.step ev s) as [s1 |] eqn:Hstep;
      [| discriminate].
    pose proof (step_simulates h ev w s s1 Hsim Hstep) as Hsim1.
    cbn [run]. destruct (step h ev w) as [w1 log1]. cbn in Hsim1.
    specialize (IH w1 s1 Hsim1 Hrun).
    destruct (run h rest w1) as [w2 log2]. exact IH.
Qed.

Lemma initialWorld_simulates : Simulates initialWorld Spec.start.
Proof. repeat split. Qed.

(** C3.  Along every sequence of operations and ticks that respects the
    state machine, started from the freshly mounted component, the elapsed
    time of the component is the elapsed time of the specification's
    machine: reset to 0 by a successful start, one more for each tick in
    Recording, unchanged by ticks in Paused (and in Idle and Stopped) and by
    pause, resume and stop.  At the end it is the number of ticks that
    occurred in Recording since the last start. *)
Theorem C3_elapsed_time (h : Host) (evs : list Event) (s : Spec.Session) :
  Spec.run evs Spec.start = Some s ->
  let w := fst (run h evs initialWorld) in
  recordingTime (ui w) = Spec.elapsed s /\
  phaseOf w = Spec.phase s /\
  recordingTime (ui (fst (step h Tick w))) =
    match Spec.phase s with
    | Spec.Recording => S (recordingTime (ui w))
    | _ => recordingTime (ui w)
    end /\
  forall stream : unit,
    recordingTime (ui (fst (step h (ClickStart (Resolved stream)) w))) = 0.
Proof.
  intros Hrun w.
  pose proof (run_simulates h evs initialWorld Spec.start s
                initialWorld_simulates Hrun) as Hsim.
  fold w in Hsim.
  assert (Htick : exists s', Spec.step Tick s = Some s' /\
                             Spec.elapsed s' =
                             match Spec.phase s with
                             | Spec.Recording => S (Spec.elapsed s)
                             | _ => Spec.elapsed s
                             end).
  { cbn. destruct (Spec.phase s); eauto. }
  destruct Htick as (s' & Hs' & He').
  pose proof (step_simulates h Tick w s s' Hsim Hs') as (_ & _ & Ht).
  destruct Hsim as (_ & Hphase & Htime).
  repeat split; auto.
  rewrite Ht, He', Htime. reflexivity.
Qed.

Lemma C3_elapsed_time_witness :
  Spec.run Sample.scenario Spec.start = Some (Spec.mk Spec.Stopped 5) /\
  recordingTime (ui (fst (run Sample.host Sample.scenario initialWorld))) = 5.
Proof.
  split; [reflexivity |].
  apply (C3_elapsed_time Sample.host Sample.scenario (Spec.mk Spec.Stopped 5)).
  reflexivity.
Defined.

(** ** The note editor *)

Section Collections.

Variable noteId : string.

Lemma filter_absent (l : list Note.t) :
  ~ In noteId (ids l) -> filter (keepOnDelete noteId) l = l.
Proof.
  induction l as [| a l IH]; intros Hnot; [reflexivity |].
  cbn in *. unfold keepOnDelete at 1.
  destruct (String.eqb_spec (Note.id a) noteId) as [Heq | Hneq]; cbn.
  - exfalso. auto.
  - f_equal. apply IH. auto.
Qed.

Lemma filter_present (l : list Note.t) :
  NoDup (ids l) -> In noteId (ids l) ->
  exists l1 n l2,
    l = l1 ++ n :: l2 /\ Note.id n = noteId /\
    filter (keepOnDelete noteId) l = l1 ++ l2.
Proof.
  induction l as [| a l IH]; intros Hnodup Hin; [destruct Hin |].
  cbn in Hnodup. inversion Hnodup as [| x xs Hnotin Hnodup']; subst.
  cbn. unfold keepOnDelete at 1.
  destruct (String.eqb_spec (Note.id a) noteId) as [Heq | Hneq]; cbn.
  - exists [], a, l. repeat split; auto.
    apply filter_absent. now rewrite <- Heq.
  - destruct Hin as [Hin | Hin]; [congruence |].
    destruct (IH Hnodup' Hin) as (l1 & n & l2 & Hl & Hn & Hf).
    exists (a :: l1), n, l2. subst l. repeat split; auto.
    cbn. now rewrite Hf.
Qed.

End Collections.

Section Replacement.

Variable updatedNote : Note.t.

Lemma map_absent (l : list Note.t) :
  ~ In (Note.id updatedNote) (ids l) -> map (replaceOnSave updatedNote) l = l.
Proof.
  induction l as [| a l IH]; intros Hnot; [reflexivity |].
  cbn in *. unfold replaceOnSave at 1.
  destruct (String.eqb_spec (Note.id a) (Note.id updatedNote)) as [Heq | Hneq].
  - exfalso. auto.
  - f_equal. apply IH. auto.
Qed.

Lemma map_present (l : list Note.t) :
  NoDup (ids l) -> In (Note.id updatedNote) (ids l) ->
  exists l1 n l2,
    l = l1 ++ n :: l2 /\ Note.id n = Note.id updatedNote /\
    map (replaceOnSave updatedNote) l = l1 ++ updatedNote :: l2.
Proof.
  induction l as [| a l IH]; intros Hnodup Hin; [destruct Hin |].
  cbn in Hnodup. inversion Hnodup as [| x xs Hnotin Hnodup']; subst.
  cbn. unfold replaceOnSave at 1.
  destruct (String.eqb_spec (Note.id a) (Note.id updatedNote)) as [Heq | Hneq].
  - exists [], a, l. repeat split; auto.
    cbn. f_equal. apply map_absent. now rewrite <- Heq.
  - destruct Hin as [Hin | Hin]; [congruence |].
    destruct (IH Hnodup' Hin) as (l1 & n & l2 & Hl & Hn & Hf).
    exists (a :: l1), n, l2. subst l. repeat split; auto.
    cbn. now rewrite Hf.
Qed.

End Replacement.

Lemma deleteNote_resolved (h : Host) (noteId : string) (r live : State) :
  db_delete h noteId = Resolved tt ->
  deleteNote h noteId r live =
    (let live1 := setNotes (filter (keepOnDelete noteId) (notes live)) live in
     if currentNoteHasId r noteId then setCurrentNote None live1 else live1,
     [DbDelete noteId; Toast success "Note deleted!"]).
Proof. intros H. unfold deleteNote. rewrite H. reflexivity. Qed.

(** C7.  A successful delete of [noteId] removes from the collection the
    one entry with that identifier when there is one, keeping the entries
    before and after it as they are, and removes nothing otherwise; the
    active note becomes empty when the handler's active note has the deleted
    identifier, and is unchanged otherwise.  Identifiers in the collection
    are unique, as the data model has it. *)
Theorem C7_delete_removes_one_entry
        (h : Host) (noteId : string) (r live : State) :
  db_delete h noteId = Resolved tt ->
  NoDup (ids (notes live)) ->
  let live' := fst (deleteNote h noteId r live) in
  (In noteId (ids (notes live)) ->
     exists l1 n l2,
       notes live = l1 ++ n :: l2 /\ Note.id n = noteId /\
       notes live' = l1 ++ l2) /\
  (~ In noteId (ids (notes live)) -> notes live' = notes live) /\
  currentNote live' =
    (if currentNoteHasId r noteId then None else currentNote live).
Proof.
  intros Hdel Hnodup live'. subst live'.
  rewrite (deleteNote_resolved h noteId r live Hdel). cbn [fst].
  assert (Hn : notes (if currentNoteHasId r noteId
                      then setCurrentNote None
                             (setNotes (filter (keepOnDelete noteId) (notes live)) live)
                      else setNotes (filter (keepOnDelete noteId) (notes live)) live)
               = filter (keepOnDelete noteId) (notes live)).
  { now destruct (currentNoteHasId r noteId). }
  cbn zeta. rewrite Hn. split; [| split].
  - intros Hin. now apply filter_present.
  - intros Hnot. now apply filter_absent.
  - now destruct (currentNoteHasId r noteId).
Qed.

Lemma C7_delete_removes_one_entry_witness :
  notes (fst (deleteNote Sample.host "n3"
                (setCurrentNote (Some Sample.ideas) Sample.loaded)
                (setCurrentNote (Some Sample.ideas) Sample.loaded)))
    = [Sample.minutes; Sample.groceries] /\
  currentNote (fst (deleteNote Sample.host "n3"
                      (setCurrentNote (Some Sample.ideas) Sample.loaded)
                      (setCurrentNote (Some Sample.ideas) Sample.loaded)))
    = None.
Proof.
  destruct (C7_delete_removes_one_entry Sample.host "n3"
              (setCurrentNote (Some Sample.ideas) Sample.loaded)
              (setCurrentNote (Some Sample.ideas) Sample.loaded))
    as (Hin & _ & Hcur).
  - reflexivity.
  - repeat constructor; cbn; intuition discriminate.
  - split; [reflexivity | exact Hcur].
Defined.

(** C9.  Saving an active note sends one call to the store, an update of
    the note's identifier carrying its content, its title and the current
    time as the update time.  When the store answers with the updated note,
    the entry of the collection with the answer's identifier is replaced by
    the answer and the entries before and after it stay as they are (with
    no such entry, the collection stays as it is); when the update fails,
    the state, and so the collection, is unchanged. *)
Theorem C9_save_replaces_matching_entry
        (h : Host) (r live : State) (cur : Note.t) :
  currentNote r = Some cur ->
  NoDup (ids (notes live)) ->
  let fields :=
    mkUpdate (Note.content cur) (Note.title cur) (date_toISOString h) in
  let live' := fst (saveNote h r live) in
  filter isStoreCall (snd (saveNote h r live)) = [DbUpdate (Note.id cur) fields] /\
  match db_update h (Note.id cur) fields with
  | Resolved updatedNote =>
      notes live' = map (replaceOnSave updatedNote) (notes live) /\
      (In (Note.id updatedNote) (ids (notes live)) ->
         exists l1 n l2,
           notes live = l1 ++ n :: l2 /\ Note.id n = Note.id updatedNote /\
           notes live' = l1 ++ updatedNote :: l2) /\
      (~ In (Note.id updatedNote) (ids (notes live)) ->
         notes live' = notes live)
  | Rejected _ => live' = live
  end.
Proof.
  intros Hcur Hnodup fields live'. subst live' fields.
  unfold saveNote. rewrite Hcur.
  destruct (db_update h (Note.id cur) _) as [updatedNote | e]; cbn.
  - split; [reflexivity |]. split; [reflexivity |]. split.
    + intros Hin. now apply map_present.
    + intros Hnot. now apply map_absent.
  - split; reflexivity.
Qed.

Lemma C9_save_replaces_matching_entry_witness :
  let edited :=
    Note.mk "n3" "Ideas" "a verified editor" "2024-01-04 11:00:00"
            "2024-01-04 11:00:00" "u1" None None in
  let saved :=
    Note.mk "n3" "Ideas" "a verified editor" "2024-01-04 11:00:00"
            "2024-01-09T08:46:40.000Z" "u1" None None in
  notes (fst (saveNote Sample.host
                (setCurrentNote (Some edited) Sample.loaded)
                (setCurrentNote (Some edited) Sample.loaded)))
    = [Sample.minutes; saved; Sample.groceries].
Proof.
  intros edited saved.
  destruct (C9_save_replaces_matching_entry Sample.host
              (setCurrentNote (Some edited) Sample.loaded)
              (setCurrentNote (Some edited) Sample.loaded) edited)
    as (_ & Hnotes & _).
  - reflexivity.
  - repeat constructor; cbn; intuition discriminate.
  - exact Hnotes.
Defined.

(** ** Loading the notes *)

Section Sorting.

Variable ord : Column * Direction.

Lemma inOrder_total (a b : Note.t) :
  HostedStore.inOrder ord a b = false -> HostedStore.inOrder ord b a = true.
Proof.
  unfold HostedStore.inOrder. destruct (snd ord); intros Hab.
  - destruct (String.leb_total (HostedStore.column (fst ord) a)
                               (HostedStore.column (fst ord) b)); congruence.
  - destruct (String.leb_total (HostedStore.column (fst ord) b)
                               (HostedStore.column (fst ord) a)); congruence.
Qed.

Lemma insert_perm (n : Note.t) (l : list Note.t) :
  Permutation (n :: l) (HostedStore.insert ord n l).
Proof.
  induction l as [| m rest IH]; cbn; [apply Permutation_refl |].
  destruct (HostedStore.inOrder ord n m); [apply Permutation_refl |].
  eapply perm_trans; [apply perm_swap |]. now apply perm_skip.
Qed.

Lemma sort_perm (l : list Note.t) : Permutation l (HostedStore.sort ord l).
Proof.
  induction l as [| n rest IH]; cbn; [constructor |].
  eapply perm_trans; [apply perm_skip, IH | apply insert_perm].
Qed.

Lemma insert_hd (n m : Note.t) (l : list Note.t) :
  HdRel (orderedBy ord) m l -> orderedBy ord m n ->
  HdRel (orderedBy ord) m (HostedStore.insert ord n l).
Proof.
  intros Hhd Hmn. destruct l as [| x rest]; cbn.
  - now constructor.
  - destruct (HostedStore.inOrder ord n x); constructor; auto.
    now inversion Hhd.
Qed.

Lemma insert_sorted (n : Note.t) (l : list Note.t) :
  Sorted (orderedBy ord) l -> Sorted (orderedBy ord) (HostedStore.insert ord n l).
Proof.
  induction l as [| m rest IH]; intros Hs; cbn.
  - repeat constructor.
  - inversion Hs as [| x xs Hrest Hhd]; subst.
    destruct (HostedStore.inOrder ord n m) eqn:Hnm.
    + constructor; [exact Hs | now constructor].
    + constructor; [now apply IH |].
      apply insert_hd; [exact Hhd | now apply inOrder_total].
Qed.

Lemma sort_sorted (l : list Note.t) :
  Sorted (orderedBy ord) (HostedStore.sort ord l).
Proof.
  induction l as [| n rest IH]; cbn; [constructor | now apply insert_sorted].
Qed.

End Sorting.

(** C6 (as amended).  Loading the notes sends one call to the store, a list
    request that asks for the ordering by last update, most recent first,
    and names no owner; when the store answers, its answer becomes the
    collection, and when it fails the state is unchanged.  Against the
    modelled store the answer is all the stored notes, of every owner,
    ordered by last update descending. *)
Theorem C6_loadNotes_lists_all_notes_ordered (h : Host) (live : State) :
  filter isStoreCall (snd (loadNotes h live)) = [DbList loadNotesOptions] /\
  where_user_id loadNotesOptions = None /\
  orderBy loadNotesOptions = Some (col_updated_at, desc) /\
  match db_list h loadNotesOptions with
  | Resolved notesData => notes (fst (loadNotes h live)) = notesData
  | Rejected _ => fst (loadNotes h live) = live
  end /\
  forall (rows : list Note.t) newId me reader transcriber now iso localeDate,
    let stored :=
      HostedStore.host rows newId me reader transcriber now iso localeDate in
    Permutation rows (notes (fst (loadNotes stored live))) /\
    Sorted updatedNotAfter (notes (fst (loadNotes stored live))).
Proof.
  unfold loadNotes.
  split; [now destruct (db_list h loadNotesOptions) |].
  split; [reflexivity |]. split; [reflexivity |].
  split; [now destruct (db_list h loadNotesOptions) |].
  intros rows newId me reader transcriber now iso localeDate. cbn.
  split.
  - apply (sort_perm (col_updated_at, desc)).
  - apply (sort_sorted (col_updated_at, desc)).
Qed.

(** C6 as it was stated fails: the signed-in user is "u1", and the loaded
    collection holds a note of "u2"; it is not the list of the notes of
    "u1". *)
Lemma C6_other_owners_notes_counterexample :
  let live := setUser (Some Sample.me) initialState in
  let loaded := notes (fst (loadNotes Sample.host live)) in
  loaded = [Sample.minutes; Sample.ideas; Sample.groceries] /\
  Note.user_id Sample.minutes <> User.id Sample.me /\
  loaded <> HostedStore.sort (col_updated_at, desc)
              (ownedBy (User.id Sample.me) Sample.rows).
Proof.
  cbn zeta. split; [reflexivity |]. split; discriminate.
Qed.

(** ** Drafts *)

(** C8.  The claim does not hold of the code: with a draft as the active
    note, the Save button sends an update carrying the draft's temporary
    identifier to the store (and the Delete button a delete carrying it). *)
Theorem C8_save_sends_temporary_identifier :
  let draft := createNewNote Sample.host Sample.loaded Sample.loaded in
  exists n,
    currentNote draft = Some n /\
    Note.id n = "temp-1704790000000" /\
    isTemporaryId (Note.id n) = true /\
    filter isStoreCall (snd (saveNote Sample.host draft draft)) =
      [DbUpdate "temp-1704790000000"
                (mkUpdate "" "New Note" "2024-01-09T08:46:40.000Z")] /\
    filter isStoreCall (snd (deleteNote Sample.host (Note.id n) draft draft)) =
      [DbDelete "temp-1704790000000"] /\
    filter isStoreCall
           (snd (run Sample.host [Mount; ClickNew; ClickSave] initialWorld)) =
      [DbSql createNotesTable; DbSql createUserIdIndex;
       DbList loadNotesOptions;
       DbUpdate "temp-1704790000000"
                (mkUpdate "" "New Note" "2024-01-09T08:46:40.000Z")].
Proof.
  cbn zeta. eexists. split; [reflexivity |]. repeat split; reflexivity.
Qed.

(** Whatever the active note, draft or not, [saveNote] sends its identifier
    to the store's update. *)
Lemma saveNote_always_updates (h : Host) (r live : State) (cur : Note.t) :
  currentNote r = Some cur ->
  In (DbUpdate (Note.id cur)
               (mkUpdate (Note.content cur) (Note.title cur) (date_toISOString h)))
     (snd (saveNote h r live)).
Proof.
  intros Hcur. unfold saveNote. rewrite Hcur.
  destruct (db_update h _ _); cbn; auto.
Qed.

(** ** The render a recorder keeps

    Which render the pipeline reads when a recording is stopped: the one in
    which that recording was started, before [startRecording] cleared the
    buffer and reset the time. *)

Lemma startRecording_keeps_render (w : World) (stream : unit) :
  nth_error (recorders (fst (startRecording (Resolved stream) w)))
            (length (recorders w))
  = Some (MediaRecorder.mk recording (ui w)).
Proof. cbn. now rewrite nth_error_app2, Nat.sub_diag by lia. Qed.

(** Pause, resume and stop never change the render a recorder keeps. *)
Lemma setRecorderState_keeps_render (i j : nat) (s : RecordingState)
      (recs : list MediaRecorder.t) :
  option_map MediaRecorder.onstop (nth_error (setRecorderState i s recs) j)
  = option_map MediaRecorder.onstop (nth_error recs j).
Proof.
  destruct (Nat.eq_dec i j) as [<- | Hij].
  - rewrite setRecorderState_here. now destruct (nth_error recs i).
  - now rewrite setRecorderState_elsewhere.
Qed.

(** Stopping a recording runs the pipeline on the render of its start. *)
Lemma clickStop_reads_start_render (h : Host) (final : Blob.t) (w : World)
      (stream : unit) :
  let started := fst (startRecording (Resolved stream) w) in
  fst (clickStop h final started) =
    mkWorld (fst (processRecording h (ui w)
                    (ondataavailable final (ui (stopRecording started)))))
            (recorders (stopRecording started)).
Proof.
  cbn zeta. unfold clickStop, currentRecorder.
  cbn [startRecording fst ui mediaRecorder setIsPaused setIsRecording
       setRecordingTime setAudioChunks setMediaRecorder recorders].
  rewrite nth_error_app2, Nat.sub_diag by lia.
  cbn [nth_error MediaRecorder.state]. unfold onstop.
  cbn [MediaRecorder.onstop].
  now destruct (processRecording h (ui w) _).
Qed.

(** The scenario of the specification, run on the mounted component: the
    first recording is stopped with its data in the buffer, but the
    pipeline reads the empty buffer of the render in which recording was
    started; nothing is transcribed, no note is made, and the data stays in
    the buffer. *)
Example first_recording_is_not_transcribed :
  let result := run Sample.host Sample.scenario initialWorld in
  notes (ui (fst result)) = [Sample.minutes; Sample.ideas; Sample.groceries] /\
  currentNote (ui (fst result)) = None /\
  recordingTime (ui (fst result)) = 5 /\
  audioChunks (ui (fst result)) = [Sample.wav 5] /\
  filter isAiTranscribeAudio (snd result) = [] /\
  filter isDbCreate (snd result) = [].
Proof. cbn zeta. repeat split; reflexivity. Qed.

(** A second recording, of one second: when it is stopped the pipeline
    reads the render of its start, which holds the data and the five
    seconds of the first recording. *)
Example second_stop_transcribes_first_recording :
  let result :=
    run Sample.host (Sample.scenario ++ Sample.secondRecording) initialWorld in
  hd_error (notes (ui (fst result))) =
    Some (Note.mk "9f3c" "Second" "hello world" "2024-01-09T08:46:40.000Z"
                  "2024-01-09T08:46:40.000Z" "u1" (Some 5) None) /\
  recordingTime (ui (fst result)) = 1 /\
  In (ReadAsDataURL (Blob.ofParts [Sample.wav 5] "audio/wav")) (snd result) /\
  audioChunks (ui (fst result)) = [].
Proof. cbn zeta. repeat split; try reflexivity. vm_compute. tauto. Qed.

(** C4.  The claim does not hold of the code.  After the recording of the
    scenario, a second recording is started and stopped at once: the buffer
    is empty when Stop is pressed and the recorder delivers no data, so the
    recording has captured no fragment.  The pipeline is still not a no-op:
    its guard reads the buffer of the render in which the second recording
    was started, which holds the data of the first; a transcription request
    is made and a note is created and made active. *)
Theorem C4_stop_without_fragments_makes_a_note :
  let before :=
    fst (run Sample.host (Sample.scenario ++ [ClickStart (Resolved tt)])
             initialWorld) in
  let result := step Sample.host (ClickStop (Sample.wav 0)) before in
  let made :=
    Note.mk "9f3c" "Voice Note 1/9/2024" "hello world"
            "2024-01-09T08:46:40.000Z" "2024-01-09T08:46:40.000Z" "u1"
            (Some 5) None in
  phaseOf before = Spec.Recording /\
  audioChunks (ui before) = [] /\
  Blob.size (Sample.wav 0) = 0 /\
  filter isAiTranscribeAudio (snd result) = [AiTranscribeAudio (Some "QUFB") "en"] /\
  filter isDbCreate (snd result) =
    [DbCreate (mkCreate "Voice Note 1/9/2024" "hello world" "u1" 5)] /\
  notes (ui (fst result)) = made :: notes (ui before) /\
  currentNote (ui (fst result)) = Some made.
Proof. vm_compute. repeat split; reflexivity. Qed.

(** ** Strings and times *)

Lemma includes_app (c : ascii) (a b : string) :
  JS.includes c (a ++ b)%string = JS.includes c a || JS.includes c b.
Proof.
  induction a as [| x a IH]; cbn; [reflexivity |].
  now rewrite IH, orb_assoc.
Qed.

Lemma split_without (sep : ascii) (s : string) :
  JS.includes sep s = false -> JS.split sep s = [s].
Proof.
  induction s as [| c s IH]; cbn; [reflexivity |].
  intros H. apply orb_false_iff in H. destruct H as [Hc Hs].
  rewrite Hc, (IH Hs). reflexivity.
Qed.

Lemma split_app (sep : ascii) (a b : string) :
  JS.includes sep a = false ->
  JS.split sep (a ++ String sep b)%string = a :: JS.split sep b.
Proof.
  induction a as [| c a IH]; cbn.
  - intros _. now rewrite Ascii.eqb_refl.
  - intros H. apply orb_false_iff in H. destruct H as [Hc Ha].
    rewrite Hc, (IH Ha). reflexivity.
Qed.

Lemma digits_without_colon (d : Decimal.uint) :
  JS.includes ":" (NilEmpty.string_of_uint d) = false.
Proof. induction d; cbn; auto. Qed.

Lemma ofNumber_without_colon (n : N) : JS.includes ":" (JS.ofNumber n) = false.
Proof.
  unfold JS.ofNumber, NilZero.string_of_uint.
  destruct (N.to_uint n); try reflexivity; apply digits_without_colon.
Qed.

Lemma toNumber_ofNumber (n : N) : JS.toNumber (JS.ofNumber n) = Some n.
Proof.
  unfold JS.toNumber, JS.ofNumber.
  rewrite NilZero.usu.
  - cbn. now rewrite DecimalN.Unsigned.of_to.
  - destruct n; [discriminate | apply DecimalPos.Unsigned.to_uint_nonnil].
Qed.

Lemma ofNumber_not_empty (n : N) : JS.ofNumber n <> "".
Proof.
  intros H. pose proof (toNumber_ofNumber n) as Hn. rewrite H in Hn.
  discriminate.
Qed.

Lemma toNumber_leading_zero (s : string) :
  s <> "" -> JS.toNumber (String "0" s) = JS.toNumber s.
Proof.
  intros Hs. unfold JS.toNumber, NilZero.uint_of_string.
  destruct s as [| c s]; [congruence |].
  change (NilEmpty.uint_of_string (String "0" (String c s)))
    with (uint_of_char "0" (NilEmpty.uint_of_string (String c s))).
  destruct (NilEmpty.uint_of_string (String c s)); reflexivity.
Qed.

Lemma toNumber_padStart (s : string) (targetLength : nat) :
  s <> "" -> JS.toNumber (JS.padStart s targetLength "0") = JS.toNumber s.
Proof.
  intros Hs. unfold JS.padStart.
  induction (targetLength - String.length s) as [| k IH]; [reflexivity |].
  cbn. rewrite toNumber_leading_zero; [exact IH |].
  destruct k; cbn; [exact Hs | discriminate].
Qed.

Lemma padStart_without_colon (s : string) (targetLength : nat) :
  JS.includes ":" s = false ->
  JS.includes ":" (JS.padStart s targetLength "0") = false.
Proof.
  intros Hs. unfold JS.padStart. rewrite includes_app, Hs, orb_false_r.
  induction (targetLength - String.length s) as [| k IH]; cbn; auto.
Qed.

Lemma seconds_field_length (k : N) :
  (k < 60)%N -> String.length (JS.padStart (JS.ofNumber k) 2 "0") = 2.
Proof.
  intros Hk.
  assert (Hnat : forall n, n < 60 ->
            String.length (JS.padStart (JS.ofNumber (N.of_nat n)) 2 "0") = 2).
  { intros n Hn. do 60 (destruct n as [| n]; [reflexivity |]). lia. }
  rewrite <- (N2Nat.id k). apply Hnat. lia.
Qed.

(** [formatTime] renders a time as minutes, a colon and a seconds field of
    exactly two digits, and loses nothing: the rendering reads back as the
    number of seconds it was made from. *)
Theorem formatTime_reads_back (seconds : N) :
  (seconds < 2 ^ 53)%N ->
  parseTime (formatTime seconds) = Some seconds /\
  exists mins secs,
    formatTime seconds = (mins ++ ":" ++ secs)%string /\
    JS.includes ":" mins = false /\
    String.length secs = 2 /\
    JS.toNumber mins = Some (seconds / 60)%N /\
    JS.toNumber secs = Some (seconds mod 60)%N.
Proof.
  intros _.
  assert (Hsecs : JS.toNumber (JS.padStart (JS.ofNumber (seconds mod 60)) 2 "0")
                  = Some (seconds mod 60)%N).
  { rewrite toNumber_padStart by apply ofNumber_not_empty.
    apply toNumber_ofNumber. }
  split.
  - unfold parseTime, formatTime. cbn zeta.
    change (":" ++ ?x)%string with (String ":" x).
    rewrite split_app by apply ofNumber_without_colon.
    rewrite split_without
      by (apply padStart_without_colon, ofNumber_without_colon).
    rewrite toNumber_ofNumber, Hsecs. f_equal.
    rewrite (N.div_mod seconds 60) at 3 by discriminate. reflexivity.
  - exists (JS.ofNumber (seconds / 60)),
           (JS.padStart (JS.ofNumber (seconds mod 60)) 2 "0").
    split; [reflexivity |].
    split; [apply ofNumber_without_colon |].
    split; [apply seconds_field_length, N.mod_lt; discriminate |].
    split; [apply toNumber_ofNumber | exact Hsecs].
Qed.

Lemma formatTime_reads_back_witness :
  formatTime 125 = "2:05" /\ parseTime (formatTime 125) = Some 125%N.
Proof.
  split; [reflexivity |].
  apply (formatTime_reads_back 125). reflexivity.
Defined.

(** ** The payload and the title of the pipeline *)

Lemma trimStart_blank (s : string) :
  JS.isBlank s = true -> JS.trimStart s = "".
Proof.
  induction s as [| c s IH]; cbn; [reflexivity |].
  intros H. apply andb_true_iff in H. destruct H as [Hc Hs].
  rewrite Hc. auto.
Qed.

Lemma trimStart_not_blank (s : string) :
  JS.isBlank s = false ->
  exists c rest, JS.trimStart s = String c rest /\ JS.isWhiteSpace c = false.
Proof.
  induction s as [| c s IH]; cbn; [discriminate |].
  destruct (JS.isWhiteSpace c) eqn:Hc; cbn; [exact IH |].
  intros _. now exists c, s.
Qed.

Lemma trimEnd_keeps_head (c : ascii) (rest : string) :
  JS.isWhiteSpace c = false ->
  exists rest', JS.trimEnd (String c rest) = String c rest'.
Proof.
  intros Hc. cbn. destruct (JS.trimEnd rest); rewrite ?Hc; eauto.
Qed.

(** The title the pipeline sends to the store is never empty.  A typed
    title of white space only (or none) gives the default title, "Voice
    Note " and the date; any other typed title is sent trimmed, and then
    starts with a character that is not white space. *)
Theorem noteTitle_never_empty (h : Host) (r : State) :
  noteTitle h r <> "" /\
  (JS.isBlank (newNoteTitle r) = true ->
     noteTitle h r = ("Voice Note " ++ date_toLocaleDateString h)%string) /\
  (JS.isBlank (newNoteTitle r) = false ->
     noteTitle h r = JS.trim (newNoteTitle r) /\
     exists c rest, noteTitle h r = String c rest /\ JS.isWhiteSpace c = false).
Proof.
  unfold noteTitle, JS.trim.
  destruct (JS.isBlank (newNoteTitle r)) eqn:Hblank.
  - rewrite (trimStart_blank _ Hblank). cbn.
    split; [discriminate |]. split; [reflexivity | discriminate].
  - destruct (trimStart_not_blank _ Hblank) as (c & rest & Hstart & Hc).
    rewrite Hstart. destruct (trimEnd_keeps_head c rest Hc) as [rest' Hend].
    rewrite Hend. cbn.
    split; [discriminate |]. split; [discriminate |].
    intros _. split; [reflexivity |]. now exists c, rest'.
Qed.

(** The audio the pipeline sends is the part of the data URL between its
    first and second comma.  For a URL of a comma-free header, a comma and a
    comma-free payload it is the payload; for a URL without a comma there is
    no such part, and the transcription service is still called, with no
    audio. *)
Theorem base64Data_of_data_url (header payload : string) :
  JS.includes "," header = false ->
  JS.includes "," payload = false ->
  base64Data (header ++ "," ++ payload)%string = Some payload /\
  base64Data header = None /\
  forall (h : Host) (r live : State),
    audioChunks r <> [] ->
    readAsDataURL h (audioBlob r) = Resolved header ->
    In (AiTranscribeAudio None "en") (snd (processRecording h r live)).
Proof.
  intros Hheader Hpayload. unfold base64Data.
  split; [| split].
  - change ("," ++ ?x)%string with (String "," x).
    rewrite split_app, split_without by assumption. reflexivity.
  - rewrite split_without by assumption. reflexivity.
  - intros h r live Hne Hread. unfold processRecording.
    destruct (audioChunks r) as [| c cs] eqn:Hchunks; [congruence |].
    unfold transcribeAndCreate, await, bind. rewrite Hread.
    unfold base64Data. rewrite split_without by assumption.
    cbn [nth_error].
    destruct (transcribeAudio h None "en") as [text | e]; cbn.
    + destruct (user r); cbn.
      * destruct (db_create h _); cbn; auto.
      * auto.
    + auto.
Qed.

Lemma base64Data_of_data_url_witness :
  base64Data "data:audio/wav;base64,QUFB" = Some "QUFB" /\
  base64Data "data:audio/wav;base64" = None.
Proof.
  destruct (base64Data_of_data_url "data:audio/wav;base64" "QUFB")
    as (Hsome & Hnone & _); [reflexivity | reflexivity |].
  split; assumption.
Defined.

(** ** Mounting *)

(** The mount effect.  [initializeDatabase] sends the table statement and,
    only when that one succeeded, the index statement; whatever becomes of
    them, signing in and loading go on as if they had succeeded.  When the
    user cannot be obtained nothing is loaded and the state is unchanged;
    when the user is obtained but the list fails, the user is kept and the
    notes are unchanged. *)
Theorem mount_effect (h : Host) (live : State) :
  let log := snd (loadUserAndNotes h live) in
  statements log =
    match db_sql h createNotesTable with
    | Resolved _ => [createNotesTable; createUserIdIndex]
    | Rejected _ => [createNotesTable]
    end /\
  In AuthMe log /\
  fst (loadUserAndNotes h live) =
    match auth_me h with
    | Resolved currentUser =>
        match db_list h loadNotesOptions with
        | Resolved notesData =>
            setNotes notesData (setUser (Some currentUser) live)
        | Rejected _ => setUser (Some currentUser) live
        end
    | Rejected _ => live
    end /\
  (In (DbList loadNotesOptions) log <-> exists u, auth_me h = Resolved u).
Proof.
  unfold loadUserAndNotes, initializeDatabase, loadNotes, await, bind.
  destruct (db_sql h createNotesTable) as [[] | e1];
    destruct (db_sql h createUserIdIndex) as [[] | e2];
    destruct (auth_me h) as [u | e3];
    try destruct (db_list h loadNotesOptions) as [l | e4];
    cbn; (split; [reflexivity |]); (split; [tauto |]);
    (split; [reflexivity |]);
    (split; [intros H; try (now exists u);
             repeat (destruct H as [H | H]; try discriminate); destruct H
            | intros [u' Hu']; try discriminate; tauto]).
Qed.

(** ** Starting *)

Lemma startRecording_granted (w : World) (stream : unit) :
  phaseOf (fst (startRecording (Resolved stream) w)) = Spec.Recording /\
  flagsAgree (fst (startRecording (Resolved stream) w)).
Proof.
  assert (Hph : phaseOf (fst (startRecording (Resolved stream) w))
                = Spec.Recording).
  { unfold phaseOf, currentRecorder. cbn.
    now rewrite nth_error_app2, Nat.sub_diag by lia. }
  split; [exact Hph |]. unfold flagsAgree. rewrite Hph. split; reflexivity.
Qed.

(** A granted start, from any state: the component refers to a new recorder
    that is recording, the flags say recording and not paused, the time is
    0 and the buffer empty; the recorder objects made before stay as they
    are (a start does not stop them), and the notes, the active note, the
    typed title, the user and the transcribing flag are kept.  A refused
    start changes nothing and reports the error. *)
Theorem startRecording_outcomes (media : Promise unit) (w : World) :
  let w' := fst (startRecording media w) in
  match media with
  | Resolved _ =>
      phaseOf w' = Spec.Recording /\
      flagsAgree w' /\
      recordingTime (ui w') = 0 /\
      audioChunks (ui w') = [] /\
      (forall j rec, nth_error (recorders w) j = Some rec ->
                     nth_error (recorders w') j = Some rec) /\
      length (recorders w') = S (length (recorders w)) /\
      (notes (ui w'), currentNote (ui w'), newNoteTitle (ui w'), user (ui w'),
       isTranscribing (ui w'))
      = (notes (ui w), currentNote (ui w), newNoteTitle (ui w), user (ui w),
         isTranscribing (ui w))
  | Rejected _ =>
      w' = w /\
      In (Toast error
            "Could not start recording. Please check microphone permissions.")
         (snd (startRecording media w))
  end.
Proof.
  destruct media as [stream | e]; cbn zeta.
  - destruct (startRecording_granted w stream) as [Hph Hflags].
    split; [exact Hph |]. split; [exact Hflags |]. cbn.
    split; [reflexivity |]. split; [reflexivity |].
    split.
    + intros j rec Hj. rewrite nth_error_app1; [exact Hj |].
      apply nth_error_Some. congruence.
    + split; [| reflexivity]. rewrite length_app. cbn. lia.
  - cbn. split; [reflexivity | auto].
Qed.

(** ** The flags and the recorder *)

Lemma flagsAgree_same_flags (w w' : World) :
  recorders w' = recorders w ->
  mediaRecorder (ui w') = mediaRecorder (ui w) ->
  isRecording (ui w') = isRecording (ui w) ->
  isPaused (ui w') = isPaused (ui w) ->
  flagsAgree w -> flagsAgree w'.
Proof.
  intros Hrecs Hm Hr Hp Hflags.
  assert (Hph : phaseOf w' = phaseOf w).
  { destruct w' as [live recs]. cbn in *. subst recs.
    now apply phaseOf_same_recorder. }
  unfold flagsAgree. now rewrite Hph, Hr, Hp.
Qed.

Lemma flagsAgree_same_view (w w' : World) :
  recorders w' = recorders w ->
  recorderView (ui w') = recorderView (ui w) ->
  flagsAgree w -> flagsAgree w'.
Proof.
  intros Hrecs Hview. unfold recorderView in Hview.
  injection Hview as Hr Hp Ht Hm. now apply flagsAgree_same_flags.
Qed.

Lemma step_flagsAgree (h : Host) (ev : Event) (w : World) :
  flagsAgree w -> flagsAgree (fst (step h ev w)).
Proof.
  intros Hflags.
  pose proof (step_other_events h ev w) as Hother.
  destruct ev; cbn [step];
    try (now apply (flagsAgree_same_view w); try apply Hother).
  - (* ClickStart *)
    destruct media as [stream | e]; [| exact Hflags].
    apply startRecording_granted.
  - (* ClickPause *)
    pose proof (pauseRecording_spec w) as Hp.
    destruct (phaseOf w) eqn:Hph; try (rewrite Hp; exact Hflags).
    destruct Hp as [Hp1 Hp2]. destruct Hflags as [Hf1 Hf2].
    rewrite Hph in Hf1. unfold flagsAgree. rewrite Hp1, Hp2. cbn. auto.
  - (* ClickResume *)
    pose proof (resumeRecording_spec w) as Hp.
    destruct (phaseOf w) eqn:Hph; try (rewrite Hp; exact Hflags).
    destruct Hp as [Hp1 Hp2]. destruct Hflags as [Hf1 Hf2].
    rewrite Hph in Hf1. unfold flagsAgree. rewrite Hp1, Hp2. cbn. auto.
  - (* ClickStop *)
    pose proof (stopRecording_spec w) as Hp.
    pose proof (clickStop_active h final w) as Hc.
    pose proof (clickStop_not_active h final w) as Hn.
    destruct (phaseOf w) eqn:Hph; try (rewrite Hn; exact Hflags);
      destruct Hp as [Hp1 Hp2]; destruct Hc as [Hc1 Hc2];
      apply (flagsAgree_same_view (stopRecording w)); auto;
      unfold flagsAgree; rewrite Hp1, Hp2; cbn; auto.
  - (* Tick *)
    apply (flagsAgree_same_flags w); try exact Hflags;
      try apply onUi_recorders; rewrite onUi_ui; cbn; unfold tick;
      now destruct (isRecording (ui w) && negb (isPaused (ui w))).
Qed.

Lemma run_flagsAgree (h : Host) (evs : list Event) (w : World) :
  flagsAgree w -> flagsAgree (fst (run h evs w)).
Proof.
  revert w. induction evs as [| ev rest IH]; intros w Hflags; [exact Hflags |].
  cbn [run]. pose proof (step_flagsAgree h ev w Hflags) as Hs.
  destruct (step h ev w) as [w1 log1]. cbn in Hs.
  specialize (IH w1 Hs). now destruct (run h rest w1).
Qed.

(** Whatever happens to the mounted component, in any order and with any
    answers of the services, the two recording flags say what the recorder
    the component refers to is doing: recording is shown exactly while that
    recorder is recording or paused, paused exactly while it is paused. *)
Theorem flags_always_agree (h : Host) (evs : list Event) :
  let w := fst (run h evs initialWorld) in
  isRecording (ui w) =
    match phaseOf w with
    | Spec.Recording | Spec.Paused => true
    | _ => false
    end /\
  isPaused (ui w) =
    match phaseOf w with
    | Spec.Paused => true
    | _ => false
    end.
Proof.
  apply (run_flagsAgree h evs initialWorld). split; reflexivity.
Qed.

Lemma offered_start_phase (w : World) (media : Promise unit) :
  flagsAgree w ->
  offered (ui w) (ClickStart media) = true ->
  phaseOf w = Spec.Idle \/ phaseOf w = Spec.Stopped.
Proof.
  intros [Hf1 Hf2]. unfold offered.
  destruct (user (ui w)); [rewrite Hf1 | discriminate].
  destruct (phaseOf w); cbn; auto; discriminate.
Qed.

(** In a state where the flags agree with the recorder, every recorder
    control the component shows does what it says: Pause leads to Paused,
    Resume to Recording, Stop to Stopped, and Start is shown only when the
    recorder referred to, if any, has stopped. *)
Theorem offered_controls_are_effective (h : Host) (w : World) :
  flagsAgree w ->
  (offered (ui w) ClickPause = true ->
     phaseOf w = Spec.Recording /\
     phaseOf (fst (step h ClickPause w)) = Spec.Paused) /\
  (offered (ui w) ClickResume = true ->
     phaseOf w = Spec.Paused /\
     phaseOf (fst (step h ClickResume w)) = Spec.Recording) /\
  (forall final, offered (ui w) (ClickStop final) = true ->
     phaseOf (fst (step h (ClickStop final) w)) = Spec.Stopped) /\
  (forall media, offered (ui w) (ClickStart media) = true ->
     phaseOf w = Spec.Idle \/ phaseOf w = Spec.Stopped).
Proof.
  intros [Hf1 Hf2]. unfold offered.
  pose proof (pauseRecording_spec w) as Hp.
  pose proof (resumeRecording_spec w) as Hr.
  pose proof (stopRecording_spec w) as Hs.
  destruct (user (ui w)); [rewrite Hf1, Hf2 | repeat split; intros; discriminate].
  split; [| split; [| split]].
  - destruct (phaseOf w); try discriminate. intros _. split; [reflexivity | apply Hp].
  - destruct (phaseOf w); try discriminate. intros _. split; [reflexivity | apply Hr].
  - intros final Hoff. pose proof (clickStop_active h final w) as Hc.
    destruct (phaseOf w) eqn:Hph; try discriminate;
      destruct Hs as [Hs1 Hs2]; destruct Hc as [Hc1 Hc2];
      cbn [step]; rewrite <- Hs1;
      destruct (fst (clickStop h final w)) as [live recs]; cbn in Hc1, Hc2;
      subst recs; unfold recorderView in Hc2; injection Hc2 as _ _ _ Hm;
      now apply phaseOf_same_recorder.
  - intros media. destruct (phaseOf w); cbn; auto; discriminate.
Qed.

Lemma offered_controls_are_effective_witness :
  let w := fst (run Sample.host [Mount; ClickStart (Resolved tt); Tick]
                    initialWorld) in
  offered (ui w) ClickPause = true /\
  phaseOf (fst (step Sample.host ClickPause w)) = Spec.Paused.
Proof.
  intro w.
  destruct (offered_controls_are_effective Sample.host w) as (Hpause & _).
  - split; reflexivity.
  - split; [reflexivity |]. now apply Hpause.
Defined.

(** ** The fragments and the payload *)

Lemma empty_blob_has_no_bytes (d : Blob.t) :
  (0 <? Blob.size d) = false -> Blob.bytes d = [].
Proof.
  unfold Blob.size. intros H. apply Nat.ltb_ge in H.
  destruct (Blob.bytes d); [reflexivity | cbn in H; lia].
Qed.

(** Fragments enter the buffer in the order the recorder delivers them;
    those without data are left out, which loses nothing: the bytes of the
    payload assembled from the buffer are the bytes of everything delivered,
    in order.  The payload is labelled audio/wav whatever the fragments
    are. *)
Theorem deliver_keeps_order (ds : list Blob.t) (live : State) :
  audioChunks (deliver ds live) =
    audioChunks live ++ filter (fun d => 0 <? Blob.size d) ds /\
  Blob.bytes (audioBlob (deliver ds live)) =
    Blob.bytes (audioBlob live) ++ concat (map Blob.bytes ds) /\
  Blob.type (audioBlob (deliver ds live)) = "audio/wav".
Proof.
  unfold deliver. split; [| split; [| reflexivity]].
  - revert live. induction ds as [| d ds IH]; intros live;
      cbn [fold_left filter].
    + now rewrite app_nil_r.
    + rewrite IH. unfold ondataavailable.
      destruct (0 <? Blob.size d); cbn [audioChunks setAudioChunks];
        [now rewrite <- app_assoc | reflexivity].
  - revert live. induction ds as [| d ds IH]; intros live;
      cbn [fold_left map concat].
    + now rewrite app_nil_r.
    + rewrite IH. unfold ondataavailable, audioBlob.
      destruct (0 <? Blob.size d) eqn:Hd;
        cbn [audioChunks setAudioChunks Blob.ofParts Blob.bytes].
      * rewrite map_app, concat_app. cbn [map concat].
        now rewrite app_nil_r, <- app_assoc.
      * now rewrite (empty_blob_has_no_bytes d Hd).
Qed.

Lemma holdsData_payload (chunks : list Blob.t) :
  chunks <> [] -> holdsData chunks ->
  0 < Blob.size (Blob.ofParts chunks "audio/wav").
Proof.
  intros Hne Hdata. destruct chunks as [| c cs]; [congruence |].
  inversion Hdata as [| x xs Hc _]; subst.
  unfold Blob.size in *. cbn. rewrite length_app. lia.
Qed.

Lemma payloads_app (a b : list Effect) :
  payloads (a ++ b) = payloads a ++ payloads b.
Proof. apply flat_map_app. Qed.

Lemma processRecording_payloads (h : Host) (r live : State) :
  payloads (snd (processRecording h r live)) =
    match audioChunks r with
    | [] => []
    | _ :: _ => [audioBlob r]
    end.
Proof.
  unfold processRecording. destruct (audioChunks r); [reflexivity |].
  unfold transcribeAndCreate, await, bind.
  destruct (readAsDataURL h (audioBlob r)) as [dataUrl | e1]; [| reflexivity].
  destruct (transcribeAudio h (base64Data dataUrl) "en") as [text | e2];
    [| reflexivity].
  destruct (user r) as [u |]; [| reflexivity].
  cbn. now destruct (db_create h _).
Qed.

Lemma processRecording_audioChunks (h : Host) (r live : State) :
  audioChunks (fst (processRecording h r live)) = audioChunks live \/
  audioChunks (fst (processRecording h r live)) = [].
Proof.
  unfold processRecording. destruct (audioChunks r); [now left |].
  right. now destruct (transcribeAndCreate h r) as [calls [n | e]].
Qed.

Lemma map_onstop_setRecorderState (i : nat) (s : RecordingState)
      (recs : list MediaRecorder.t) :
  map MediaRecorder.onstop (setRecorderState i s recs)
  = map MediaRecorder.onstop recs.
Proof.
  revert i. induction recs as [| rec rest IH]; intros [| i]; cbn; auto.
  now rewrite IH.
Qed.

Lemma stopRecording_renders (w : World) : renders (stopRecording w) = renders w.
Proof.
  unfold stopRecording, renders.
  destruct (currentRecorder w) as [[i rec] |]; [| reflexivity].
  destruct (MediaRecorder.state rec); cbn;
    auto using map_onstop_setRecorderState.
Qed.

(** The renders kept by the recorders only grow, by the render of a granted
    start. *)
Lemma step_renders (h : Host) (ev : Event) (w : World) :
  renders (fst (step h ev w)) = renders w \/
  (exists stream, ev = ClickStart (Resolved stream)) /\
  renders (fst (step h ev w)) = renders w ++ [ui w].
Proof.
  unfold renders.
  destruct ev; cbn [step]; try (left; now rewrite onUi_recorders).
  - destruct media as [stream | e]; [right | now left].
    split; [now exists stream |]. cbn. now rewrite map_app.
  - left. unfold pauseRecording.
    destruct (currentRecorder w) as [[i rec] |]; [| reflexivity].
    destruct (MediaRecorder.state rec); cbn;
      auto using map_onstop_setRecorderState.
  - left. unfold resumeRecording.
    destruct (currentRecorder w) as [[i rec] |]; [| reflexivity].
    destruct (MediaRecorder.state rec); cbn;
      auto using map_onstop_setRecorderState.
  - left. rewrite clickStop_recorders. apply stopRecording_renders.
Qed.

Lemma loadUserAndNotes_audioChunks (h : Host) (live : State) :
  audioChunks (fst (loadUserAndNotes h live)) = audioChunks live /\
  payloads (snd (loadUserAndNotes h live)) = [].
Proof.
  unfold loadUserAndNotes, initializeDatabase, loadNotes, await, bind.
  destruct (db_sql h createNotesTable) as [[] | e1];
    destruct (db_sql h createUserIdIndex) as [[] | e2];
    destruct (auth_me h) as [u | e3];
    try destruct (db_list h loadNotesOptions) as [l | e4]; cbn; auto.
Qed.

Lemma saveNote_audioChunks (h : Host) (r live : State) :
  audioChunks (fst (saveNote h r live)) = audioChunks live /\
  payloads (snd (saveNote h r live)) = [].
Proof.
  unfold saveNote. destruct (currentNote r); [| auto].
  now destruct (db_update h _ _).
Qed.

Lemma deleteNote_audioChunks (h : Host) (noteId : string) (r live : State) :
  audioChunks (fst (deleteNote h noteId r live)) = audioChunks live /\
  payloads (snd (deleteNote h noteId r live)) = [].
Proof.
  unfold deleteNote. destruct (db_delete h noteId); [| auto].
  cbn. now destruct (currentNoteHasId r noteId).
Qed.

(** What a step does to the buffer, and what it hands to the file reader. *)
Lemma step_buffer (h : Host) (ev : Event) (w : World) :
  buffersHoldData w ->
  holdsData (audioChunks (ui (fst (step h ev w)))) /\
  Forall (fun b => 0 < Blob.size b) (payloads (snd (step h ev w))).
Proof.
  intros [Hui Hrenders].
  destruct ev; cbn [step]; try rewrite onUi_ui; try (unfold onUi);
    try (split; [exact Hui | constructor]).
  - (* Mount *)
    destruct (loadUserAndNotes_audioChunks h (ui w)) as [Hc Hp].
    destruct (loadUserAndNotes h (ui w)) as [live log]. cbn in *.
    rewrite Hc, Hp. split; [exact Hui | constructor].
  - (* ClickStart *)
    destruct media; cbn; (split; [first [exact Hui | constructor] | constructor]).
  - (* ClickPause *)
    unfold pauseRecording.
    destruct (currentRecorder w) as [[i rec] |]; [| split; [exact Hui | constructor]].
    destruct (MediaRecorder.state rec); cbn; (split; [exact Hui | constructor]).
  - (* ClickResume *)
    unfold resumeRecording.
    destruct (currentRecorder w) as [[i rec] |]; [| split; [exact Hui | constructor]].
    destruct (MediaRecorder.state rec); cbn; (split; [exact Hui | constructor]).
  - (* ClickStop *)
    unfold clickStop.
    destruct (currentRecorder w) as [[i rec] |] eqn:Hcur;
      [| split; [exact Hui | constructor]].
    assert (Hrec : holdsData (audioChunks (MediaRecorder.onstop rec))).
    { destruct (currentRecorder_inv w i rec Hcur) as [_ Hi].
      unfold renders in Hrenders. rewrite Forall_forall in Hrenders.
      apply Hrenders. apply in_map. eapply nth_error_In; eauto. }
    assert (Hdel : forall live,
               holdsData (audioChunks live) ->
               holdsData (audioChunks (ondataavailable final live))).
    { intros live Hl. unfold ondataavailable.
      destruct (0 <? Blob.size final) eqn:Hd; [| exact Hl].
      cbn. apply Forall_app. split; [exact Hl |].
      constructor; [now apply Nat.ltb_lt | constructor]. }
    assert (Hrun : forall live,
               holdsData (audioChunks live) ->
               holdsData (audioChunks (fst (onstop h rec live))) /\
               Forall (fun b => 0 < Blob.size b) (payloads (snd (onstop h rec live)))).
    { intros live Hl. unfold onstop. split.
      - destruct (processRecording_audioChunks h (MediaRecorder.onstop rec) live)
          as [-> | ->]; [exact Hl | constructor].
      - rewrite processRecording_payloads.
        destruct (audioChunks (MediaRecorder.onstop rec)) eqn:Hchunks;
          constructor; [| constructor].
        unfold audioBlob. rewrite Hchunks. apply holdsData_payload;
          [discriminate | exact Hrec]. }
    destruct (MediaRecorder.state rec); [split; [exact Hui | constructor] | |].
    + specialize (Hrun (ondataavailable final (ui (stopRecording w)))).
      destruct (onstop h rec _) as [live log]. cbn in *. apply Hrun, Hdel.
      unfold stopRecording. rewrite Hcur.
      destruct (MediaRecorder.state rec); exact Hui.
    + specialize (Hrun (ondataavailable final (ui (stopRecording w)))).
      destruct (onstop h rec _) as [live log]. cbn in *. apply Hrun, Hdel.
      unfold stopRecording. rewrite Hcur.
      destruct (MediaRecorder.state rec); exact Hui.
  - (* Tick *)
    cbn. split; [| constructor]. unfold tick.
    now destruct (isRecording (ui w) && negb (isPaused (ui w))).
  - (* SelectNote *)
    destruct (nth_error (notes (ui w)) i); cbn; (split; [exact Hui | constructor]).
  - (* EditTitle *)
    cbn. split; [| constructor]. unfold editTitle.
    now destruct (currentNote (ui w)).
  - (* EditContent *)
    cbn. split; [| constructor]. unfold editContent.
    now destruct (currentNote (ui w)).
  - (* ClickSave *)
    destruct (saveNote_audioChunks h (ui w) (ui w)) as [Hc Hp].
    destruct (saveNote h (ui w) (ui w)) as [live log]. cbn in *.
    rewrite Hc, Hp. split; [exact Hui | constructor].
  - (* ClickDelete *)
    destruct (currentNote (ui w)) as [cur |]; [| split; [exact Hui | constructor]].
    destruct (deleteNote_audioChunks h (Note.id cur) (ui w) (ui w)) as [Hc Hp].
    destruct (deleteNote h (Note.id cur) (ui w) (ui w)) as [live log]. cbn in *.
    rewrite Hc, Hp. split; [exact Hui | constructor].
Qed.

Lemma step_buffersHoldData (h : Host) (ev : Event) (w : World) :
  buffersHoldData w -> buffersHoldData (fst (step h ev w)).
Proof.
  intros Hinv. split; [now apply step_buffer |].
  destruct Hinv as [Hui Hrenders].
  destruct (step_renders h ev w) as [-> | [_ ->]]; [exact Hrenders |].
  apply Forall_app. split; [exact Hrenders | now constructor].
Qed.

Lemma run_buffer (h : Host) (evs : list Event) (w : World) :
  buffersHoldData w ->
  buffersHoldData (fst (run h evs w)) /\
  Forall (fun b => 0 < Blob.size b) (payloads (snd (run h evs w))).
Proof.
  revert w. induction evs as [| ev rest IH]; intros w Hinv.
  - split; [exact Hinv | constructor].
  - cbn [run].
    pose proof (step_buffersHoldData h ev w Hinv) as Hs.
    pose proof (proj2 (step_buffer h ev w Hinv)) as Hp.
    destruct (step h ev w) as [w1 log1]. cbn in Hs, Hp.
    specialize (IH w1 Hs). destruct (run h rest w1) as [w2 log2]. cbn in *.
    split; [apply IH |]. rewrite payloads_app. apply Forall_app.
    split; [exact Hp | apply IH].
Qed.

(** Whatever happens to the mounted component, every fragment in the buffer
    holds data, and every payload handed to the file reader, and so sent on
    for transcription, holds at least one byte. *)
Theorem payloads_are_never_empty (h : Host) (evs : list Event) :
  holdsData (audioChunks (ui (fst (run h evs initialWorld)))) /\
  Forall (fun b => 0 < Blob.size b) (payloads (snd (run h evs initialWorld))).
Proof.
  assert (Hinit : buffersHoldData initialWorld).
  { split; constructor. }
  destruct (run_buffer h evs initialWorld Hinit) as [[Hui _] Hp].
  split; assumption.
Qed.

(** ** From start to stop *)

Lemma recorderView_mediaRecorder (s s' : State) :
  recorderView s = recorderView s' -> mediaRecorder s = mediaRecorder s'.
Proof. unfold recorderView. now intros [= _ _ _ H]. Qed.

Lemma recordingWith_current (i : nat) (r0 : State) (w : World) :
  recordingWith i r0 w ->
  exists rec,
    currentRecorder w = Some (i, rec) /\
    MediaRecorder.onstop rec = r0 /\
    MediaRecorder.state rec <> inactive.
Proof.
  intros (Hm & rec & Hi & Hr & Hs). exists rec.
  unfold currentRecorder. now rewrite Hm, Hi.
Qed.

Lemma recordingWith_toggled (i : nat) (r0 : State) (w : World)
      (rec : MediaRecorder.t) (s : RecordingState) (live : State) :
  currentRecorder w = Some (i, rec) ->
  MediaRecorder.onstop rec = r0 ->
  s <> inactive ->
  mediaRecorder live = Some i ->
  recordingWith i r0 (mkWorld live (setRecorderState i s (recorders w))).
Proof.
  intros Hcur Hr Hs Hm. destruct (currentRecorder_inv w i rec Hcur) as [_ Hi].
  split; [exact Hm |]. cbn.
  exists (MediaRecorder.mk s (MediaRecorder.onstop rec)).
  rewrite setRecorderState_here, Hi. cbn. auto.
Qed.

Lemma step_recordingWith (h : Host) (ev : Event) (i : nat) (r0 : State)
      (w : World) :
  duringRecording ev = true ->
  recordingWith i r0 w ->
  recordingWith i r0 (fst (step h ev w)).
Proof.
  intros Hev Hrec.
  pose proof (step_other_events h ev w) as Hother.
  destruct (recordingWith_current i r0 w Hrec) as (rec & Hcur & Hr & Hs).
  destruct (currentRecorder_inv w i rec Hcur) as [Hm Hi].
  destruct ev; try discriminate;
    try (destruct Hother as [Hrecs Hview];
         apply recorderView_mediaRecorder in Hview;
         unfold recordingWith; rewrite Hrecs, Hview; exact Hrec);
    cbn [step].
  - (* ClickPause *)
    unfold pauseRecording. rewrite Hcur.
    destruct (MediaRecorder.state rec); try exact Hrec.
    apply (recordingWith_toggled i r0 w rec); auto. discriminate.
  - (* ClickResume *)
    unfold resumeRecording. rewrite Hcur.
    destruct (MediaRecorder.state rec); try exact Hrec.
    apply (recordingWith_toggled i r0 w rec); auto. discriminate.
  - (* Tick *)
    unfold recordingWith. rewrite onUi_recorders, onUi_ui. cbn. unfold tick.
    now destruct (isRecording (ui w) && negb (isPaused (ui w))).
Qed.

Lemma run_recordingWith (h : Host) (evs : list Event) (i : nat) (r0 : State)
      (w : World) :
  forallb duringRecording evs = true ->
  recordingWith i r0 w ->
  recordingWith i r0 (fst (run h evs w)).
Proof.
  revert w. induction evs as [| ev rest IH]; intros w Hevs Hrec; [exact Hrec |].
  cbn in Hevs. apply andb_true_iff in Hevs. destruct Hevs as [Hev Hrest].
  cbn [run]. pose proof (step_recordingWith h ev i r0 w Hev Hrec) as Hs.
  destruct (step h ev w) as [w1 log1]. cbn in Hs.
  specialize (IH w1 Hrest Hs). now destruct (run h rest w1).
Qed.

(** What the pipeline sends out depends on the render it reads only. *)
Lemma processRecording_calls (h : Host) (r live live' : State) :
  snd (processRecording h r live) = snd (processRecording h r live').
Proof.
  unfold processRecording. destruct (audioChunks r); [reflexivity |].
  now destruct (transcribeAndCreate h r) as [calls [n | e]].
Qed.

Lemma clickStop_recordingWith (h : Host) (final : Blob.t) (i : nat)
      (r0 : State) (w : World) :
  recordingWith i r0 w ->
  snd (clickStop h final w) = snd (processRecording h r0 r0) /\
  ui (fst (clickStop h final w)) =
    fst (processRecording h r0 (ondataavailable final (ui (stopRecording w)))).
Proof.
  intros Hrec.
  destruct (recordingWith_current i r0 w Hrec) as (rec & Hcur & Hr & Hs).
  unfold clickStop. rewrite Hcur. unfold onstop. rewrite Hr.
  pose proof (processRecording_calls h r0
                (ondataavailable final (ui (stopRecording w))) r0) as Hcalls.
  destruct (MediaRecorder.state rec); [congruence | |];
    destruct (processRecording h r0 (ondataavailable final _)) as [live log];
    cbn in *; auto.
Qed.

(** A recording is started, then anything happens except another start or
    a stop: ticks, pauses and resumes, typing, editing, saving, deleting.
    When the recording is stopped, the calls the pipeline makes are those
    of a run on the state in which Start was pressed: neither the data
    delivered at the stop nor the time elapsed since has a part in them.
    If the buffer was empty when Start was pressed, the stop makes no call
    and adds no note, and data delivered at the stop stays in the buffer. *)
Theorem stop_reads_the_render_of_its_start
        (h : Host) (w : World) (stream : unit) (mid : list Event)
        (final : Blob.t) :
  forallb duringRecording mid = true ->
  let recorded := fst (run h mid (fst (startRecording (Resolved stream) w))) in
  let stopped := step h (ClickStop final) recorded in
  snd stopped = snd (processRecording h (ui w) (ui w)) /\
  (audioChunks (ui w) = [] ->
     snd stopped = [] /\
     notes (ui (fst stopped)) = notes (ui recorded) /\
     currentNote (ui (fst stopped)) = currentNote (ui recorded) /\
     audioChunks (ui (fst stopped)) =
       audioChunks (ui recorded) ++ (if 0 <? Blob.size final then [final] else [])).
Proof.
  intros Hmid recorded stopped.
  assert (Hstart : recordingWith (length (recorders w)) (ui w)
                     (fst (startRecording (Resolved stream) w))).
  { split; [reflexivity |].
    exists (MediaRecorder.mk recording (ui w)).
    rewrite startRecording_keeps_render. cbn. repeat split. discriminate. }
  pose proof (run_recordingWith h mid _ _ _ Hmid Hstart) as Hrec.
  fold recorded in Hrec.
  destruct (clickStop_recordingWith h final _ _ recorded Hrec) as [Hlog Hui].
  subst stopped. cbn [step]. split; [exact Hlog |].
  intros Hempty. rewrite Hlog, Hui.
  rewrite !(processRecording_empty_buffer h (ui w) _ Hempty). cbn [fst snd].
  split; [reflexivity |].
  destruct (recordingWith_current _ _ recorded Hrec) as (rec & Hcur & _ & Hs).
  unfold stopRecording. rewrite Hcur. unfold ondataavailable.
  destruct (MediaRecorder.state rec); [congruence | |];
    destruct (0 <? Blob.size final); cbn;
    rewrite ?app_nil_r; auto.
Qed.

Lemma stop_reads_the_render_of_its_start_witness :
  let started := fst (run Sample.host [Mount] initialWorld) in
  let recorded :=
    fst (run Sample.host [Tick; ClickPause; ClickResume; Tick]
             (fst (startRecording (Resolved tt) started))) in
  snd (step Sample.host (ClickStop (Sample.wav 5)) recorded) = [].
Proof.
  intros started recorded.
  destruct (stop_reads_the_render_of_its_start
              Sample.host started tt [Tick; ClickPause; ClickResume; Tick]
              (Sample.wav 5)) as [_ Hempty].
  - reflexivity.
  - apply Hempty. reflexivity.
Defined.

(** ** What the shown controls allow *)

Lemma othersInactive_same (w w' : World) :
  recorders w' = recorders w ->
  mediaRecorder (ui w') = mediaRecorder (ui w) ->
  othersInactive w -> othersInactive w'.
Proof.
  intros Hrecs Hm Hinv j rec Hj Hs. rewrite Hm. rewrite Hrecs in Hj. eauto.
Qed.

Lemma othersInactive_set (w : World) (i : nat) (rec : MediaRecorder.t)
      (s : RecordingState) (live : State) :
  currentRecorder w = Some (i, rec) ->
  mediaRecorder live = mediaRecorder (ui w) ->
  othersInactive w ->
  othersInactive (mkWorld live (setRecorderState i s (recorders w))).
Proof.
  intros Hcur Hm Hinv j rec' Hj Hs. cbn in *. rewrite Hm.
  destruct (currentRecorder_inv w i rec Hcur) as [Hmi _].
  destruct (Nat.eq_dec i j) as [<- | Hij]; [exact Hmi |].
  rewrite setRecorderState_elsewhere in Hj by exact Hij. eauto.
Qed.

Lemma stopRecording_othersInactive (w : World) :
  othersInactive w -> othersInactive (stopRecording w).
Proof.
  intros Hinv. unfold stopRecording.
  destruct (currentRecorder w) as [[i rec] |] eqn:Hcur; [| exact Hinv].
  destruct (MediaRecorder.state rec); try exact Hinv;
    now apply (othersInactive_set w i rec).
Qed.

Lemma clickStop_mediaRecorder (h : Host) (final : Blob.t) (w : World) :
  mediaRecorder (ui (fst (clickStop h final w))) = mediaRecorder (ui w).
Proof.
  pose proof (clickStop_active h final w) as Hact.
  pose proof (clickStop_not_active h final w) as Hnot.
  pose proof (stopRecording_spec w) as Hs.
  destruct (phaseOf w); try (now rewrite Hnot);
    destruct Hact as [_ Hview]; destruct Hs as [_ Hui];
    apply recorderView_mediaRecorder in Hview;
    rewrite Hview, Hui; reflexivity.
Qed.

Lemma step_othersInactive (h : Host) (ev : Event) (w : World) :
  flagsAgree w ->
  offered (ui w) ev = true ->
  othersInactive w ->
  othersInactive (fst (step h ev w)).
Proof.
  intros Hflags Hoff Hinv.
  pose proof (step_other_events h ev w) as Hother.
  destruct ev;
    try (destruct Hother as [Hrecs Hview];
         apply recorderView_mediaRecorder in Hview;
         now apply (othersInactive_same w));
    cbn [step].
  - (* ClickStart *)
    destruct media as [stream | e]; [| exact Hinv].
    pose proof (offered_start_phase w (Resolved stream) Hflags Hoff) as Hstart.
    intros j rec Hj Hs. cbn in *.
    destruct (Nat.lt_ge_cases j (length (recorders w))) as [Hlt | Hge].
    + exfalso. rewrite nth_error_app1 in Hj by exact Hlt.
      pose proof (Hinv j rec Hj Hs) as Hm.
      pose proof (phaseOf_eq w j rec Hm Hj) as Hph.
      destruct (MediaRecorder.state rec); cbn in Hph;
        destruct Hstart; congruence.
    + f_equal. apply Nat.le_antisymm; [exact Hge |].
      assert (Hsome : nth_error (recorders w ++ [MediaRecorder.mk recording (ui w)]) j
                      <> None) by congruence.
      apply nth_error_Some in Hsome. rewrite length_app in Hsome. cbn in Hsome.
      lia.
  - (* ClickPause *)
    unfold pauseRecording.
    destruct (currentRecorder w) as [[i rec] |] eqn:Hcur; [| exact Hinv].
    destruct (MediaRecorder.state rec); try exact Hinv.
    now apply (othersInactive_set w i rec).
  - (* ClickResume *)
    unfold resumeRecording.
    destruct (currentRecorder w) as [[i rec] |] eqn:Hcur; [| exact Hinv].
    destruct (MediaRecorder.state rec); try exact Hinv.
    now apply (othersInactive_set w i rec).
  - (* ClickStop *)
    apply (othersInactive_same (stopRecording w)).
    + apply clickStop_recorders.
    + rewrite clickStop_mediaRecorder.
      pose proof (stopRecording_spec w) as Hs.
      destruct (phaseOf w); try (now rewrite Hs);
        destruct Hs as [_ ->]; reflexivity.
    + now apply stopRecording_othersInactive.
  - (* Tick *)
    apply (othersInactive_same w); [apply onUi_recorders | | exact Hinv].
    rewrite onUi_ui. cbn. unfold tick.
    now destruct (isRecording (ui w) && negb (isPaused (ui w))).
Qed.

Lemma step_rendersSignedIn (h : Host) (ev : Event) (w : World) :
  offered (ui w) ev = true ->
  rendersSignedIn w ->
  rendersSignedIn (fst (step h ev w)).
Proof.
  intros Hoff Hinv. unfold rendersSignedIn.
  destruct (step_renders h ev w) as [-> | [[stream ->] ->]]; [exact Hinv |].
  apply Forall_app. split; [exact Hinv |]. constructor; [| constructor].
  cbn in Hoff. destruct (user (ui w)); [discriminate | discriminate].
Qed.

Lemma run_offered (h : Host) (evs : list Event) (w : World) :
  allOffered h evs w = true ->
  flagsAgree w -> othersInactive w -> rendersSignedIn w ->
  othersInactive (fst (run h evs w)) /\ rendersSignedIn (fst (run h evs w)).
Proof.
  revert w. induction evs as [| ev rest IH]; intros w Hoff Hflags Hothers Hsigned;
    [now split |].
  cbn in Hoff. apply andb_true_iff in Hoff. destruct Hoff as [Hev Hrest].
  cbn [run].
  pose proof (step_flagsAgree h ev w Hflags) as H1.
  pose proof (step_othersInactive h ev w Hflags Hev Hothers) as H2.
  pose proof (step_rendersSignedIn h ev w Hev Hsigned) as H3.
  destruct (step h ev w) as [w1 log1]. cbn in *.
  specialize (IH w1 Hrest H1 H2 H3). now destruct (run h rest w1).
Qed.



(** As long as only shown controls are used, every recording is started by
    a signed-in user, so the pipeline run at its stop finds the user whose
    identifier it puts on the note. *)
Theorem recordings_have_a_user (h : Host) (evs : list Event) :
  allOffered h evs initialWorld = true ->
  forall rec,
    In rec (recorders (fst (run h evs initialWorld))) ->
    user (MediaRecorder.onstop rec) <> None.
Proof.
  intros Hoff rec Hin.
  assert (Hsigned : rendersSignedIn (fst (run h evs initialWorld))).
  { apply (run_offered h evs initialWorld Hoff).
    - split; reflexivity.
    - intros j r Hj. destruct j; discriminate.
    - constructor. }
  unfold rendersSignedIn, renders in Hsigned. rewrite Forall_forall in Hsigned.
  apply Hsigned. now apply in_map.
Qed.

Lemma recordings_have_a_user_witness :
  allOffered Sample.host Sample.scenario initialWorld = true /\
  Forall (fun rec => user (MediaRecorder.onstop rec) <> None)
         (recorders (fst (run Sample.host Sample.scenario initialWorld))).
Proof.
  split; [reflexivity |]. apply Forall_forall.
  apply (recordings_have_a_user Sample.host Sample.scenario). reflexivity.
Defined.

(** ** The collection under delete and save *)

Lemma ids_filter_NoDup (keep : Note.t -> bool) (l : list Note.t) :
  NoDup (ids l) -> NoDup (ids (filter keep l)).
Proof.
  unfold ids. induction l as [| n l IH]; cbn; [auto |].
  intros Hnodup. inversion Hnodup as [| x xs Hnotin Hrest]; subst.
  destruct (keep n); cbn; [| auto].
  constructor; [| auto].
  intros Hin. apply Hnotin. apply in_map_iff in Hin.
  destruct Hin as (m & Hm & Hinm). apply filter_In in Hinm.
  apply in_map_iff. exists m. tauto.
Qed.

Lemma ids_replaceOnSave (updatedNote : Note.t) (l : list Note.t) :
  ids (map (replaceOnSave updatedNote) l) = ids l.
Proof.
  unfold ids. rewrite map_map. apply map_ext. intros n. unfold replaceOnSave.
  destruct (String.eqb_spec (Note.id n) (Note.id updatedNote)); congruence.
Qed.

(** [deleteNote], without assuming anything of the collection.  After a
    delete the store accepted, no entry has the deleted identifier, every
    other entry is still there and nothing new is; when the store refuses,
    the state is unchanged and the failure is reported. *)
Theorem deleteNote_outcomes (h : Host) (noteId : string) (r live : State) :
  let live' := fst (deleteNote h noteId r live) in
  match db_delete h noteId with
  | Resolved _ =>
      ~ In noteId (ids (notes live')) /\
      forall n, In n (notes live') <->
                In n (notes live) /\ Note.id n <> noteId
  | Rejected _ =>
      live' = live /\
      In (Toast error "Failed to delete note") (snd (deleteNote h noteId r live))
  end.
Proof.
  unfold deleteNote. destruct (db_delete h noteId) as [[] | e]; cbn.
  - assert (Hn : notes (if currentNoteHasId r noteId
                        then setCurrentNote None
                               (setNotes (filter (keepOnDelete noteId) (notes live)) live)
                        else setNotes (filter (keepOnDelete noteId) (notes live)) live)
                 = filter (keepOnDelete noteId) (notes live)).
    { now destruct (currentNoteHasId r noteId). }
    fold (keepOnDelete noteId). rewrite Hn.
    assert (Hkeep : forall n, keepOnDelete noteId n = true <-> Note.id n <> noteId).
    { intros n. unfold keepOnDelete.
      destruct (String.eqb_spec (Note.id n) noteId); cbn; split;
        congruence. }
    split.
    + unfold ids. intros Hin. apply in_map_iff in Hin.
      destruct Hin as (n & Hid & Hin). apply filter_In in Hin.
      destruct Hin as [_ Hk]. apply Hkeep in Hk. congruence.
    + intros n. rewrite filter_In, Hkeep. tauto.
  - auto.
Qed.

Lemma saveNote_ids (h : Host) (r live : State) :
  ids (notes (fst (saveNote h r live))) = ids (notes live).
Proof.
  unfold saveNote. destruct (currentNote r) as [cur |]; [| reflexivity].
  destruct (db_update h _ _) as [updatedNote | e]; cbn; [| reflexivity].
  apply (ids_replaceOnSave updatedNote).
Qed.

(** [saveNote] never adds, removes or reorders entries: whatever the active
    note (a draft too) and whatever the store answers, the identifiers of
    the collection, in order, are what they were; the active note itself is
    left as edited. *)
Theorem saveNote_keeps_identifiers (h : Host) (r live : State) :
  ids (notes (fst (saveNote h r live))) = ids (notes live) /\
  currentNote (fst (saveNote h r live)) = currentNote live.
Proof.
  split; [apply saveNote_ids |].
  unfold saveNote. destruct (currentNote r) as [cur |]; [| reflexivity].
  now destruct (db_update h _ _).
Qed.

(** Unique identifiers are kept: by a save and by a delete always, and by a
    successful run of the pipeline exactly when the identifier of the
    store's new note is not yet in the collection. *)
Theorem identifiers_stay_unique (h : Host) (r live : State) :
  NoDup (ids (notes live)) ->
  NoDup (ids (notes (fst (saveNote h r live)))) /\
  (forall noteId, NoDup (ids (notes (fst (deleteNote h noteId r live))))) /\
  (forall newNote,
     audioChunks r <> [] ->
     snd (transcribeAndCreate h r) = Resolved newNote ->
     (NoDup (ids (notes (fst (processRecording h r live)))) <->
      ~ In (Note.id newNote) (ids (notes live)))).
Proof.
  intros Hnodup. split; [| split].
  - now rewrite saveNote_ids.
  - intros noteId. unfold deleteNote.
    destruct (db_delete h noteId) as [[] | e]; cbn; [| exact Hnodup].
    destruct (currentNoteHasId r noteId); cbn; now apply ids_filter_NoDup.
  - intros newNote Hne Hout.
    rewrite (processRecording_resolved h r live newNote Hne Hout). cbn.
    split.
    + intros H. now inversion H.
    + intros H. now constructor.
Qed.

Lemma identifiers_stay_unique_witness :
  NoDup (ids (notes (fst (saveNote Sample.host Sample.loaded Sample.loaded)))) /\
  NoDup (ids (notes (fst (deleteNote Sample.host "n2" Sample.loaded Sample.loaded)))).
Proof.
  destruct (identifiers_stay_unique Sample.host Sample.loaded Sample.loaded)
    as (Hsave & Hdelete & _).
  - repeat constructor; cbn; intuition discriminate.
  - split; [exact Hsave | apply Hdelete].
Defined.

(** ** Editing *)

(** Edits stay in the active copy until Save: typing a title and a content
    changes neither the collection nor anything outside, and the Save that
    follows sends exactly one call, the update of the active note's
    identifier with the typed content and title. *)
Theorem edits_reach_the_store_on_save
        (h : Host) (w : World) (cur : Note.t) (v c : string) :
  currentNote (ui w) = Some cur ->
  let edited := run h [EditTitle v; EditContent c] w in
  notes (ui (fst edited)) = notes (ui w) /\
  snd edited = [] /\
  filter isStoreCall (snd (step h ClickSave (fst edited))) =
    [DbUpdate (Note.id cur) (mkUpdate c v (date_toISOString h))].
Proof.
  intros Hcur. destruct w as [live recs]. cbn in Hcur.
  cbn. unfold editTitle. rewrite Hcur. cbn.
  split; [reflexivity |]. split; [reflexivity |].
  unfold onUi, saveNote. cbn.
  match goal with
  | |- context [db_update h ?i ?f] => now destruct (db_update h i f)
  end.
Qed.

Lemma edits_reach_the_store_on_save_witness :
  let w := mkWorld (setCurrentNote (Some Sample.ideas) Sample.loaded) [] in
  filter isStoreCall
         (snd (step Sample.host ClickSave
                    (fst (run Sample.host
                              [EditTitle "Plans"; EditContent "ship it"] w)))) =
    [DbUpdate "n3" (mkUpdate "ship it" "Plans" "2024-01-09T08:46:40.000Z")].
Proof.
  intro w.
  apply (edits_reach_the_store_on_save Sample.host w Sample.ideas
           "Plans" "ship it").
  reflexivity.
Defined.

(** Edits that were not saved are dropped without a word when a note of
    the list is clicked or a new draft is made: the state is the one the
    click would have given without the edits, and nothing is sent. *)
Theorem unsaved_edits_are_dropped
        (h : Host) (w : World) (i : nat) (n : Note.t) (v c : string) :
  nth_error (notes (ui w)) i = Some n ->
  run h [EditTitle v; EditContent c; SelectNote i] w = (fst (step h (SelectNote i) w), []) /\
  run h [EditTitle v; EditContent c; ClickNew] w = (fst (step h ClickNew w), []) /\
  currentNote (ui (fst (step h (SelectNote i) w))) = Some n.
Proof.
  intros Hn. destruct w as [live recs]. cbn in Hn. cbn.
  unfold onUi, editTitle, editContent, createNewNote. cbn.
  destruct (currentNote live) as [cur |] eqn:Hcur; cbn; rewrite ?Hcur, Hn; cbn;
    auto.
Qed.

Lemma unsaved_edits_are_dropped_witness :
  let w := mkWorld (setCurrentNote (Some Sample.ideas) Sample.loaded) [] in
  currentNote
    (ui (fst (run Sample.host [EditTitle "Plans"; EditContent "x"; SelectNote 0] w)))
  = Some Sample.minutes.
Proof.
  intro w.
  destruct (unsaved_edits_are_dropped Sample.host w 0 Sample.minutes "Plans" "x")
    as (Hselect & _ & Hcur); [reflexivity |].
  rewrite Hselect. exact Hcur.
Defined.

(** ** Drafts and their identifiers *)

Lemma ofNumber_injective (a b : N) : JS.ofNumber a = JS.ofNumber b -> a = b.
Proof.
  intros H. pose proof (toNumber_ofNumber a) as Ha.
  rewrite H, toNumber_ofNumber in Ha. now injection Ha.
Qed.

(** A new draft becomes the active note and nothing else changes: it is not
    put in the collection and no call is made.  Its identifier always has
    the temporary form, and two drafts have the same identifier exactly when
    they were made in the same millisecond. *)
Theorem draft_identifiers (h h' : Host) (r live r' live' : State) :
  exists d d',
    currentNote (createNewNote h r live) = Some d /\
    currentNote (createNewNote h' r' live') = Some d' /\
    isTemporaryId (Note.id d) = true /\
    createNewNote h r live = setCurrentNote (Some d) live /\
    (Note.title d, Note.content d, Note.duration d) = ("New Note", "", None) /\
    (Note.id d = Note.id d' <-> date_now h = date_now h').
Proof.
  unfold createNewNote. eexists. eexists.
  split; [reflexivity |]. split; [reflexivity |]. cbn.
  split; [now destruct (JS.ofNumber (date_now h)) |].
  split; [reflexivity |]. split; [reflexivity |].
  split.
  - intros H. injection H as H. now apply ofNumber_injective.
  - now intros ->.
Qed.

(** ** Without a user *)

Lemma initializeDatabase_effects (h : Host) :
  forallb isMountEffect (initializeDatabase h) = true.
Proof.
  unfold initializeDatabase, await, bind.
  destruct (db_sql h createNotesTable) as [[] | e1];
    destruct (db_sql h createUserIdIndex) as [[] | e2]; reflexivity.
Qed.

Lemma signed_out_step (h : Host) (ev : Event) (w : World) (e : string) :
  auth_me h = Rejected e ->
  user (ui w) = None ->
  offered (ui w) ev = true ->
  user (ui (fst (step h ev w))) = None /\
  forallb isMountEffect (snd (step h ev w)) = true.
Proof.
  intros Hauth Huser Hoff. unfold offered in Hoff. rewrite Huser in Hoff.
  destruct ev; try discriminate; cbn [step]; unfold onUi.
  - unfold loadUserAndNotes. rewrite Hauth. cbn. split; [exact Huser |].
    rewrite forallb_app, initializeDatabase_effects. reflexivity.
  - cbn. split; [| reflexivity]. unfold tick.
    now destruct (isRecording (ui w) && negb (isPaused (ui w))).
Qed.

Lemma signed_out_run (h : Host) (evs : list Event) (w : World) (e : string) :
  auth_me h = Rejected e ->
  user (ui w) = None ->
  allOffered h evs w = true ->
  user (ui (fst (run h evs w))) = None /\
  forallb isMountEffect (snd (run h evs w)) = true.
Proof.
  intros Hauth. revert w. induction evs as [| ev rest IH]; intros w Huser Hoff;
    [now split |].
  cbn in Hoff. apply andb_true_iff in Hoff. destruct Hoff as [Hev Hrest].
  destruct (signed_out_step h ev w e Hauth Huser Hev) as [Hu Hlog].
  cbn [run]. destruct (step h ev w) as [w1 log1]. cbn in *.
  specialize (IH w1 Hu Hrest). destruct (run h rest w1) as [w2 log2]. cbn in *.
  split; [apply IH |]. rewrite forallb_app, Hlog. apply IH.
Qed.

(** When the user cannot be obtained, the component stays signed out and,
    as long as only shown controls are used, does nothing but mount: no
    note is listed, created, updated or deleted, no audio is read or sent,
    and no notice is shown. *)
Theorem signed_out_component_sends_nothing
        (h : Host) (evs : list Event) (e : string) :
  auth_me h = Rejected e ->
  allOffered h evs initialWorld = true ->
  user (ui (fst (run h evs initialWorld))) = None /\
  forallb isMountEffect (snd (run h evs initialWorld)) = true /\
  notes (ui (fst (run h evs initialWorld))) = [] /\
  recorders (fst (run h evs initialWorld)) = [].
Proof.
  intros Hauth Hoff.
  destruct (signed_out_run h evs initialWorld e Hauth eq_refl Hoff) as [Hu Hlog].
  split; [exact Hu |]. split; [exact Hlog |].
  clear Hu Hlog.
  assert (Hgen : forall evs' w,
             user (ui w) = None -> allOffered h evs' w = true ->
             notes (ui (fst (run h evs' w))) = notes (ui w) /\
             recorders (fst (run h evs' w)) = recorders w).
  { induction evs' as [| ev rest IH]; intros w Huser Hw; [now split |].
    cbn in Hw. apply andb_true_iff in Hw. destruct Hw as [Hev Hrest].
    destruct (signed_out_step h ev w e Hauth Huser Hev) as [Hu _].
    assert (Hsame : notes (ui (fst (step h ev w))) = notes (ui w) /\
                    recorders (fst (step h ev w)) = recorders w).
    { unfold offered in Hev. rewrite Huser in Hev.
      destruct ev; try discriminate; cbn [step]; unfold onUi.
      - unfold loadUserAndNotes. rewrite Hauth. now split.
      - cbn. split; [| reflexivity]. unfold tick.
        now destruct (isRecording (ui w) && negb (isPaused (ui w))). }
    cbn [run]. destruct (step h ev w) as [w1 log1]. cbn in *.
    specialize (IH w1 Hu Hrest). destruct (run h rest w1) as [w2 log2].
    cbn in *. destruct IH as [-> ->]. exact Hsame. }
  apply (Hgen evs initialWorld eq_refl Hoff).
Qed.

Lemma signed_out_component_sends_nothing_witness :
  let h :=
    HostedStore.host Sample.rows "9f3c" (Rejected "401") Sample.reader
                     Sample.transcriber 1704790000000%N
                     "2024-01-09T08:46:40.000Z" "1/9/2024" in
  user (ui (fst (run h [Mount; Tick] initialWorld))) = None /\
  forallb isMountEffect (snd (run h [Mount; Tick] initialWorld)) = true.
Proof.
  intro h.
  destruct (signed_out_component_sends_nothing h [Mount; Tick] "401")
    as (Hu & Hlog & _); [reflexivity | reflexivity |].
  split; assumption.
Defined.
